(** * SMTPvrfy: the VRFY user enumeration script, [smtp_vrfy.py]

    A shallow embedding of the script's two functions, [get_usernames] (the
    candidate supplier) and [verify_smtp] (the probing loop), and the
    properties of the specification checked against them.

    The script is read as Python 3, the language of its f-strings and of
    [urllib.parse].  Python text is [string]; integers are [Z].  The socket,
    the clock and the standard output are the outside world: every call the
    script makes to them is recorded, in order, as an [event], and what a
    socket call answers (a value, or an exception) is read from a script of
    the server, one [session] per candidate.  A reply is the text on which
    the script's [in] tests run.  The built-in [int], [str.splitlines] and
    [urlparse] are the standard library's: the script is modelled for any
    such functions, and instances of them on ASCII text run the examples.
    [time.sleep] belongs to the world as the socket does: whether it
    returns is part of the session.  The local variables the loop changes
    are threaded through a small monad of state, trace and control ([M]),
    with [break] and exceptions as the ways a block can end. *)

From Stdlib Require Import ZArith String Ascii Bool Lia.
From stdpp Require Import base list strings.

Local Open Scope string_scope.
Local Open Scope Z_scope.

(** ** Python text *)

Module Py.

(** [needle in hay] on text: a substring test. *)
Fixpoint contains (needle hay : string) : bool :=
  String.prefix needle hay ||
  match hay with
  | EmptyString => false
  | String _ rest => contains needle rest
  end.

(** [s.split(sep)] for a separator of one character: the pieces between
    the separators, empty pieces kept. *)
Fixpoint split (sep : ascii) (s : string) : list string :=
  match s with
  | EmptyString => [EmptyString]
  | String c rest =>
      if Ascii.eqb c sep then EmptyString :: split sep rest
      else match split sep rest with
           | piece :: pieces => String c piece :: pieces
           | [] => [String c EmptyString]
           end
  end.

Fixpoint lstrip (c : ascii) (s : string) : string :=
  match s with
  | String a rest => if Ascii.eqb a c then lstrip c rest else s
  | EmptyString => EmptyString
  end.

Fixpoint rstrip (c : ascii) (s : string) : string :=
  match s with
  | EmptyString => EmptyString
  | String a rest =>
      match rstrip c rest with
      | EmptyString => if Ascii.eqb a c then EmptyString else String a EmptyString
      | kept => String a kept
      end
  end.

(** [s.strip(c)] for one character [c]. *)
Definition strip (c : ascii) (s : string) : string := rstrip c (lstrip c s).

(** The characters [str.split()] takes for white space, in ASCII: tab,
    line feed, vertical tab, form feed, carriage return, the four
    separators 28..31 and the space. *)
Definition isspace (c : ascii) : bool :=
  let n := nat_of_ascii c in
  ((9 <=? n) && (n <=? 13) || (28 <=? n) && (n <=? 32))%nat.

(** The characters [int()] strips from ASCII text: tab, line feed,
    vertical tab, form feed, carriage return and the space. *)
Definition int_space (c : ascii) : bool :=
  let n := nat_of_ascii c in
  ((9 <=? n) && (n <=? 13) || (n =? 32))%nat.

Fixpoint lstrip_ws (s : string) : string :=
  match s with
  | String a rest => if int_space a then lstrip_ws rest else s
  | EmptyString => EmptyString
  end.

Fixpoint rstrip_ws (s : string) : string :=
  match s with
  | EmptyString => EmptyString
  | String a rest =>
      match rstrip_ws rest with
      | EmptyString => if int_space a then EmptyString else String a EmptyString
      | kept => String a kept
      end
  end.

Definition digit (c : ascii) : option Z :=
  let n := nat_of_ascii c in
  if ((48 <=? n) && (n <=? 57))%nat then Some (Z.of_nat n - 48) else None.

(** Decimal digits, single underscores allowed between two digits. *)
Fixpoint digits (s : string) (acc : Z) (after_digit : bool) : option Z :=
  match s with
  | EmptyString => if after_digit then Some acc else None
  | String c rest =>
      match digit c with
      | Some d => digits rest (10 * acc + d) true
      | None =>
          if Ascii.eqb c "_" && after_digit then digits rest acc false else None
      end
  end.

(** An instance of the built-in [int] on text, base ten, for ASCII text
    that is not too long for [int]: white space around, an optional sign,
    digits.  [None] is the [ValueError] of a text that is no number.  The
    script is modelled for any [int]; this one runs the examples. *)
Definition int (s : string) : option Z :=
  match rstrip_ws (lstrip_ws s) with
  | String "+" rest => digits rest 0 false
  | String "-" rest => Z.opp <$> digits rest 0 false
  | body => digits body 0 false
  end.

(** The exceptions the script meets.  [IOError] stands for the whole
    [OSError] family, which is what [except IOError] catches; it carries
    [str(e)]. *)
Inductive exn : Type :=
| IOError (msg : string)
| TypeError
| ValueError
| UnboundLocalError
| OtherException (name : string).

End Py.
Export Py(exn(..)).

(** ** The outside world *)

(** What the world does to the candidate of one iteration: the answer of
    each socket call the iteration can make, and of the sleep of its
    [finally] block, [None] or [inr] when the call returns, an exception
    when it raises.  A reply is the text the membership tests of the script
    read. *)
Record session : Type := {
  socket_res : option exn;        (* socket.socket(AF_INET, SOCK_STREAM) *)
  settimeout_res : option exn;    (* s.settimeout(timeout_value) *)
  connect_res : option exn;       (* s.connect((ip, port)) *)
  banner_res : exn + string;      (* banner = s.recv(1024) *)
  send_res : option exn;          (* s.send(command) *)
  reply_res : exn + string;       (* result = s.recv(1024) *)
  sleep_res : option exn          (* time.sleep(sleep_value), when it is called *)
}.

(** A server: the session it plays for the candidate at each position. *)
Definition server : Type := nat -> session.

(** The calls the script makes, as the world sees them.  A socket is named
    by the position of the candidate whose iteration created it. *)
Inductive event : Type :=
| Flush                                                   (* sys.stdout.flush() *)
| Print (line : string)                                   (* print(line) *)
| SocketNew (id : nat) (res : option exn)
| SetTimeout (id : nat) (seconds : Z) (res : option exn)
| Connect (id : nat) (ip : string) (port : Z) (res : option exn)
| Banner (id : nat) (res : exn + string)                  (* the first recv *)
| Send (id : nat) (command : string) (res : option exn)
| Reply (id : nat) (res : exn + string)                   (* the second recv *)
| Close (id : nat)                                        (* s.close() *)
| Sleep (seconds : Z).                                    (* time.sleep(seconds) *)

(** ** Statements *)

(** The local variables of [verify_smtp] that the loop changes: the list
    [valid_users] and the socket variable [s], unbound until the first
    [socket.socket] returns. *)
Record locals : Type := {
  valid_users : list string;
  s : option nat
}.

(** How a block ends: it falls through with a value, leaves the loop
    ([break]), or raises. *)
Inductive outcome (A : Type) : Type :=
| Val (a : A)
| Brk
| Exc (e : exn).
Arguments Val {A} a.
Arguments Brk {A}.
Arguments Exc {A} e.

Record step (A : Type) : Type := {
  out : outcome A;
  vars : locals;
  log : list event
}.
Arguments out {A} _.
Arguments vars {A} _.
Arguments log {A} _.

Definition M (A : Type) : Type := locals -> step A.

Definition ret {A} (a : A) : M A :=
  fun l => {| out := Val a; vars := l; log := [] |}.

(** The calls of [t] were made first, then what [r] tells. *)
Definition prepend {A} (t : list event) (r : step A) : step A :=
  match r with
  | {| out := o; vars := l; log := t' |} => {| out := o; vars := l; log := t ++ t' |}
  end.

Definition bind {A B} (m : M A) (k : A -> M B) : M B :=
  fun l =>
    match m l with
    | {| out := Val a; vars := l1; log := t1 |} => prepend t1 (k a l1)
    | {| out := Brk; vars := l1; log := t1 |} => {| out := Brk; vars := l1; log := t1 |}
    | {| out := Exc e; vars := l1; log := t1 |} => {| out := Exc e; vars := l1; log := t1 |}
    end.

Declare Scope py_scope.
Delimit Scope py_scope with py.
Notation "x <- m ;; k" := (bind m (fun x => k))
  (at level 100, m at next level, right associativity) : py_scope.
Notation "m ;; k" := (bind m (fun _ => k))
  (at level 100, right associativity) : py_scope.
Local Open Scope py_scope.

Definition emit (e : event) : M unit :=
  fun l => {| out := Val tt; vars := l; log := [e] |}.

Definition raise {A} (e : exn) : M A :=
  fun l => {| out := Exc e; vars := l; log := [] |}.

Definition break {A} : M A :=
  fun l => {| out := Brk; vars := l; log := [] |}.

Definition pass : M unit := ret tt.

(** A call of the outside world that returns nothing: recorded, then its
    exception, if it has one. *)
Definition call (e : event) (res : option exn) : M unit :=
  emit e ;; match res with None => pass | Some x => raise x end.

(** A call that returns text. *)
Definition recv (e : event) (res : exn + string) : M string :=
  emit e ;; match res with inr text => ret text | inl x => raise x end.

(** Reading the variable [s]. *)
Definition get_s : M nat :=
  fun l =>
    match s l with
    | Some id => {| out := Val id; vars := l; log := [] |}
    | None => {| out := Exc UnboundLocalError; vars := l; log := [] |}
    end.

Definition set_s (id : nat) : M unit :=
  fun l => {| out := Val tt;
              vars := {| valid_users := valid_users l; s := Some id |};
              log := [] |}.

(** [valid_users.append(user)] *)
Definition append_valid (user : string) : M unit :=
  fun l => {| out := Val tt;
              vars := {| valid_users := valid_users l ++ [user]; s := s l |};
              log := [] |}.

(** [valid_users = []] *)
Definition reset_valid : M unit :=
  fun l => {| out := Val tt;
              vars := {| valid_users := []; s := s l |};
              log := [] |}.

Definition get_valid : M (list string) :=
  fun l => {| out := Val (valid_users l); vars := l; log := [] |}.

(** [print(line)] *)
Definition print (line : string) : M unit := emit (Print line).

(** [print(line) % args]: the line is printed as it stands, [print]
    returns [None], and [None % args] raises [TypeError]. *)
Definition print_mod (line : string) : M unit :=
  print line ;; raise TypeError.

(** [time.sleep(seconds)]: whether it returns is the world's answer (it
    raises on a negative length and on one too large for the clock). *)
Definition sleep (seconds : Z) (res : option exn) : M unit :=
  call (Sleep seconds) res.

Definition when (b : bool) (m : M unit) : M unit := if b then m else pass.

(** [try: body  except IOError as e: handler(str(e))] *)
Definition try_except_IOError {A} (body : M A) (handler : string -> M A) : M A :=
  fun l =>
    match body l with
    | {| out := Exc (IOError msg); vars := l1; log := t1 |} => prepend t1 (handler msg l1)
    | r => r
    end.

(** [try: body  finally: final]: [final] runs however [body] ends, and a
    [final] that does not fall through decides how the whole ends. *)
Definition try_finally {A} (body : M A) (final : M unit) : M A :=
  fun l =>
    match body l with
    | {| out := o; vars := l1; log := t1 |} =>
        match final l1 with
        | {| out := Val _; vars := l2; log := t2 |} =>
            {| out := o; vars := l2; log := t1 ++ t2 |}
        | {| out := Brk; vars := l2; log := t2 |} =>
            {| out := Brk; vars := l2; log := t1 ++ t2 |}
        | {| out := Exc e; vars := l2; log := t2 |} =>
            {| out := Exc e; vars := l2; log := t1 ++ t2 |}
        end
    end.

(** ** The verification engine: [verify_smtp] *)

(** What a caller can pass as [port]: [None], an integer (what the command
    line gives), or text. *)
Inductive port_arg : Type :=
| PNone
| PInt (n : Z)
| PStr (text : string).

(** Lines 54-57: [if port is None or port == " ": port = 25] and
    [else: port = int(port)].  [int] is the built-in on text: [None] when
    it raises [ValueError]. *)
Definition resolve_port (int : string -> option Z) (port : port_arg) : exn + Z :=
  match port with
  | PNone => inr 25
  | PInt n => inr n
  | PStr text =>
      if String.eqb text " " then inr 25
      else match int text with
           | Some n => inr n
           | None => inl ValueError
           end
  end.

Definition lift {A} (r : exn + A) : M A :=
  match r with inr a => ret a | inl e => raise e end.

(** The lines the script prints. *)
Definition msg_connecting := "[*] Connecting to %s on port %s to execute the test".
Definition msg_banner := "[*] The system banner is: '%s'".
Definition msg_executing := "[*] Executing: %s".
Definition msg_valid := "[+] Username %s is valid".
Definition msg_rejected := "[-] 550 Username doesn't exist".
Definition msg_auth := "[!] The server requires authentication".
Definition msg_unsupported := "[!] The VRFY command is not supported".
Definition msg_error := "[!] The following error occurred: '%s'".
Definition msg_failed := "[!] The connection to SMTP failed".

Definition newline : string := String (ascii_of_nat 10) EmptyString.

Section Engine.

Variable int : string -> option Z.
Variable verbose : Z.
Variable ip : string.
Variable timeout_value sleep_value : Z.
Variable net : server.

(** Lines 84-96: the reply is searched for the four codes in turn. *)
Definition analyze (user result : string) : M unit :=
  if Py.contains "252" result then
    append_valid user ;;
    when (verbose >? 1) (print_mod msg_valid)
  else if Py.contains "550" result then
    when (verbose >? 1) (print msg_rejected)
  else if Py.contains "503" result then
    print msg_auth ;; break
  else if Py.contains "500" result then
    print msg_unsupported ;; break
  else pass.

(** Lines 67-96: the body of the [try]. *)
Definition probe (port : Z) (i : nat) (user : string) : M unit :=
  let ses := net i in
  emit Flush ;;
  call (SocketNew i (socket_res ses)) (socket_res ses) ;;
  set_s i ;;
  id <- get_s ;;
  call (SetTimeout id timeout_value (settimeout_res ses)) (settimeout_res ses) ;;
  id <- get_s ;;
  call (Connect id ip port (connect_res ses)) (connect_res ses) ;;
  id <- get_s ;;
  banner <- recv (Banner id (banner_res ses)) (banner_res ses) ;;
  when (verbose >? 0) (print_mod msg_banner) ;;
  let command := "VRFY " ++ user ++ newline in
  when (verbose >? 0) (print_mod msg_executing) ;;
  id <- get_s ;;
  call (Send id command (send_res ses)) (send_res ses) ;;
  id <- get_s ;;
  result <- recv (Reply id (reply_res ses)) (reply_res ses) ;;
  analyze user result.

(** Lines 98-103: the handler of [except IOError as e]. *)
Definition on_IOError (msg : string) : M unit :=
  when (verbose >? 1) (print_mod msg_error) ;;
  if Py.contains "Operation now in progress" msg then
    print msg_failed ;; break
  else pass.

(** Lines 105-109: the [finally] block of the turn at position [i]. *)
Definition teardown (i : nat) : M unit :=
  id <- get_s ;;
  emit (Close id) ;;
  if sleep_value =? 0 then pass
  else sleep sleep_value (sleep_res (net i)) ;; emit Flush.

(** Lines 66-109: one turn of the loop, for the candidate at position [i]. *)
Definition iteration (port : Z) (i : nat) (user : string) : M unit :=
  try_finally (try_except_IOError (probe port i user) on_IOError) (teardown i).

(** Line 65: [for user in usernames]; [i] is the position of the head of
    [usernames].  A [break] ends the loop, an exception leaves it. *)
Fixpoint for_loop (port : Z) (i : nat) (usernames : list string) : M unit :=
  match usernames with
  | [] => pass
  | user :: rest =>
      fun l =>
        match iteration port i user l with
        | {| out := Val _; vars := l1; log := t1 |} =>
            prepend t1 (for_loop port (S i) rest l1)
        | {| out := Brk; vars := l1; log := t1 |} =>
            {| out := Val tt; vars := l1; log := t1 |}
        | {| out := Exc e; vars := l1; log := t1 |} =>
            {| out := Exc e; vars := l1; log := t1 |}
        end
  end.

(** Lines 50-111. *)
Definition verify_smtp_body (usernames : list string) (port : port_arg)
  : M (list string) :=
  port <- lift (resolve_port int port) ;;
  when (verbose >? 0) (print_mod msg_connecting) ;;
  reset_valid ;;
  for_loop port 0 usernames ;;
  get_valid.

End Engine.

(** No local variable is bound when the function is entered. *)
Definition entry : locals := {| valid_users := []; s := None |}.

(** A call of [verify_smtp] with the built-in [int] and against a server:
    how it ends ([Val] of the returned list, or [Exc]), and the calls it
    made. *)
Definition verify_smtp (int : string -> option Z) (verbose : Z)
    (usernames : list string) (ip : string) (timeout_value sleep_value : Z)
    (port : port_arg) (net : server)
  : step (list string) :=
  verify_smtp_body int verbose ip timeout_value sleep_value net usernames port entry.

(** *** The scan result a caller reads *)

Inductive abort_reason : Type := AuthRequired | Unsupported | ConnectionError.

Inductive scan_status : Type :=
| Completed
| Aborted (reason : abort_reason).

Record ScanResult : Type := {
  confirmed : list string;
  status : scan_status
}.

Definition prints (line : string) (e : event) : bool :=
  match e with
  | Print l => String.eqb l line
  | _ => false
  end.

(** The script returns the confirmed list only; why a scan stopped is told
    by the line it prints, without condition, before each [break]. *)
Definition status_of (trace : list event) : scan_status :=
  if existsb (prints msg_auth) trace then Aborted AuthRequired
  else if existsb (prints msg_unsupported) trace then Aborted Unsupported
  else if existsb (prints msg_failed) trace then Aborted ConnectionError
  else Completed.

Definition scan_result (r : step (list string)) : exn + ScanResult :=
  match r with
  | {| out := Val l; log := trace |} => inr {| confirmed := l; status := status_of trace |}
  | {| out := Exc e |} => inl e
  | {| out := Brk |} => inl (OtherException "break")
  end.

(** ** The candidate supplier: [get_usernames] *)

(** What [urllib.parse.urlparse] returns. *)
Record ParseResult : Type := {
  scheme : string;
  netloc : string;
  path : string;
  params : string;
  query : string;
  fragment : string
}.

(** What [open(filename)] followed by [file.read()] gives: the text of the
    file, or one of the failures [get_usernames] tells apart. *)
Inductive read_result : Type :=
| Content (text : string)
| NotFound                     (* FileNotFoundError *)
| Denied                       (* PermissionError *)
| Failed (text : string).      (* any other Exception e, with str(e) *)

Module Lines.

(** An instance of [str.splitlines] for ASCII text, with its ASCII line
    boundaries.  The supplier is modelled for any [splitlines]; this one
    runs the examples. *)
Definition boundary (c : ascii) : bool :=
  let n := nat_of_ascii c in
  ((10 <=? n) && (n <=? 13) || (28 <=? n) && (n <=? 30))%nat.

(** [text.splitlines()]: a carriage return and the line feed after it are
    one boundary, and no empty line follows the last boundary. *)
Fixpoint splitlines (text : string) : list string :=
  match text with
  | EmptyString => []
  | String c rest =>
      if boundary c then
        EmptyString ::
          match rest with
          | String c' rest' =>
              if Ascii.eqb c (ascii_of_nat 13) && Ascii.eqb c' (ascii_of_nat 10)
              then splitlines rest' else splitlines rest
          | EmptyString => []
          end
      else
        match splitlines rest with
        | line :: lines => String c line :: lines
        | [] => [String c EmptyString]
        end
  end.

End Lines.

Section Supplier.

(** The file system and the standard library's [str.splitlines] and
    [urlparse] are the supplier's environment. *)
Variable isfile : string -> bool.                 (* os.path.isfile *)
Variable read : string -> read_result.            (* open(..).read() *)
Variable splitlines : string -> list string.      (* str.splitlines *)
Variable urlparse : string -> exn + ParseResult.

(** Lines 10-14; [inl] is the failure of [open] or [read], left to the caller. *)
Definition read_file (filename : string) : read_result + list string :=
  match read filename with
  | Content text => inr (splitlines text)
  | failure => inl failure
  end.

(** Lines 41-43: an entry whose scheme is [http] or [https] is replaced
    by its path without the slashes around it. *)
Definition username_of (username_or_url : string) : exn + string :=
  match urlparse username_or_url with
  | inl e => inl e
  | inr parsed_url =>
      if String.eqb (scheme parsed_url) "http" || String.eqb (scheme parsed_url) "https"
      then inr (Py.strip "/" (path parsed_url))
      else inr username_or_url
  end.

(** Lines 39-44: the loop over the pieces of the argument; an exception
    of [urlparse] leaves it. *)
Fixpoint collect (entries usernames : list string) : exn + list string :=
  match entries with
  | [] => inr usernames
  | username_or_url :: rest =>
      match username_of username_or_url with
      | inl e => inl e
      | inr username => collect rest (usernames ++ [username])
      end
  end.

(** Lines 16-48: the lines printed, and the list returned or the
    exception raised. *)
Definition get_usernames (usernames_arg : string) : list string * (exn + list string) :=
  if negb (String.eqb usernames_arg "") then
    if isfile usernames_arg then
      match read_file usernames_arg with
      | inr lines => ([], inr lines)
      | inl NotFound =>
          (["Error: File '" ++ usernames_arg ++ "' not found."], inr [])
      | inl Denied =>
          (["Error: Unable to access file '" ++ usernames_arg ++ "'."], inr [])
      | inl (Failed e) =>
          (["Error reading usernames from file: " ++ e], inr [])
      | inl (Content _) => ([], inr [])
      end
    else ([], collect (Py.split " " usernames_arg) [])
  else
    (["No usernames provided. Please specify either a file path or a list of usernames."],
     inr []).

End Supplier.

(** *** An instance of the URL parser

    [urlparse] after CPython 3.12's [urlsplit] and [urlparse], on ASCII
    text.  It does not check that the text between brackets in the network
    location is an IP address; the theorems below hold for any parser, and
    this one runs the examples. *)
Module Urllib.

Definition is_alpha (c : ascii) : bool :=
  let n := nat_of_ascii c in
  ((65 <=? n) && (n <=? 90) || (97 <=? n) && (n <=? 122))%nat.

Definition scheme_char (c : ascii) : bool :=
  is_alpha c || match Py.digit c with Some _ => true | None => false end
  || Ascii.eqb c "+" || Ascii.eqb c "-" || Ascii.eqb c ".".

Definition lower (c : ascii) : ascii :=
  let n := nat_of_ascii c in
  if ((65 <=? n) && (n <=? 90))%nat then ascii_of_nat (n + 32) else c.

Fixpoint map_string (f : ascii -> ascii) (s : string) : string :=
  match s with
  | EmptyString => EmptyString
  | String c rest => String (f c) (map_string f rest)
  end.

Fixpoint all_chars (p : ascii -> bool) (s : string) : bool :=
  match s with
  | EmptyString => true
  | String c rest => p c && all_chars p rest
  end.

Fixpoint remove_chars (p : ascii -> bool) (s : string) : string :=
  match s with
  | EmptyString => EmptyString
  | String c rest =>
      if p c then remove_chars p rest else String c (remove_chars p rest)
  end.

(** The text before the first character that satisfies [p], and the text
    from that character on. *)
Fixpoint break_at (p : ascii -> bool) (s : string) : string * string :=
  match s with
  | EmptyString => (EmptyString, EmptyString)
  | String c rest =>
      if p c then (EmptyString, s)
      else let (before, from) := break_at p rest in (String c before, from)
  end.

(** [s.split(c, 1)] when [c] is in [s]; the second part is [None] when it
    is not. *)
Definition cut (c : ascii) (s : string) : string * option string :=
  match break_at (Ascii.eqb c) s with
  | (before, String _ after) => (before, Some after)
  | (before, EmptyString) => (before, None)
  end.

Definition has (c : ascii) (s : string) : bool :=
  negb (all_chars (fun a => negb (Ascii.eqb a c)) s).

Definition c0_or_space (c : ascii) : bool := (nat_of_ascii c <=? 32)%nat.

Definition unsafe (c : ascii) : bool :=
  let n := nat_of_ascii c in ((n =? 9) || (n =? 10) || (n =? 13))%nat.

Fixpoint lstrip_c0 (s : string) : string :=
  match s with
  | String c rest => if c0_or_space c then lstrip_c0 rest else s
  | EmptyString => EmptyString
  end.

Definition uses_params : list string :=
  [""; "ftp"; "hdl"; "prospero"; "http"; "imap"; "https"; "shttp"; "rtsp";
   "rtspu"; "sip"; "sips"; "mms"; "sftp"; "tel"].

(** [_splitparams]: the parameters start at the first semicolon of the
    last segment of the path. *)
Fixpoint splitparams (url : string) : string * string :=
  match url with
  | EmptyString => (EmptyString, EmptyString)
  | String c rest =>
      if has "/" rest then
        let (p, q) := splitparams rest in (String c p, q)
      else
        match cut ";" url with
        | (p, Some q) => (p, q)
        | (p, None) => (p, EmptyString)
        end
  end.

Definition urlparse (url : string) : exn + ParseResult :=
  let url := remove_chars unsafe (lstrip_c0 url) in
  let (sch, url) :=
    match cut ":" url with
    | (String c before, Some after) =>
        if is_alpha c && all_chars scheme_char before
        then (map_string lower (String c before), after)
        else (EmptyString, url)
    | _ => (EmptyString, url)
    end in
  let (loc, url) :=
    match url with
    | String "/" (String "/" rest) =>
        break_at (fun c => Ascii.eqb c "/" || Ascii.eqb c "?" || Ascii.eqb c "#") rest
    | _ => (EmptyString, url)
    end in
  if xorb (has "[" loc) (has "]" loc) then inl ValueError
  else
    let (url, frag) :=
      match cut "#" url with (u, Some f) => (u, f) | (u, None) => (u, EmptyString) end in
    let (url, qry) :=
      match cut "?" url with (u, Some q) => (u, q) | (u, None) => (u, EmptyString) end in
    let (url, prm) :=
      if existsb (String.eqb sch) uses_params && has ";" url
      then splitparams url else (url, EmptyString) in
    inr {| scheme := sch; netloc := loc; path := url;
           params := prm; query := qry; fragment := frag |}.

End Urllib.

Definition no_file : string -> bool := fun _ => false.
Definition no_read : string -> read_result := fun _ => NotFound.

(** * The vocabulary of the properties *)

(** The socket an event is about. *)
Definition socket_of (e : event) : option nat :=
  match e with
  | SocketNew id _ | SetTimeout id _ _ | Connect id _ _ _ | Banner id _
  | Send id _ _ | Reply id _ | Close id => Some id
  | Flush | Print _ | Sleep _ => None
  end.

(** The events after which the script leaves the loop: a reply with 503 or
    500 and neither 252 nor 550, and a connect failure with the marker. *)
Definition fatal (e : event) : bool :=
  match e with
  | Reply _ (inr r) =>
      negb (Py.contains "252" r) && negb (Py.contains "550" r)
      && (Py.contains "503" r || Py.contains "500" r)
  | Connect _ _ _ (Some (IOError msg)) => Py.contains "Operation now in progress" msg
  | _ => false
  end.

Definition reason_of (e : event) : abort_reason :=
  match e with
  | Reply _ (inr r) => if Py.contains "503" r then AuthRequired else Unsupported
  | _ => ConnectionError
  end.

(** One of the three lines that announce a [break]. *)
Definition announces (e : event) : bool :=
  prints msg_auth e || prints msg_unsupported e || prints msg_failed e.

(** Every [Close] is followed at once by a [Sleep] of [d] seconds. *)
Fixpoint paced (d : Z) (t : list event) : bool :=
  match t with
  | [] => true
  | Close _ :: rest =>
      match rest with
      | Sleep d' :: _ => (d' =? d) && paced d rest
      | _ => false
      end
  | _ :: rest => paced d rest
  end.

(** The sleep of the turn played against [ses] returns, if there is one:
    there is none with a delay of zero. *)
Definition sleep_returns (sleep_value : Z) (ses : session) : Prop :=
  sleep_value = 0 \/ sleep_res ses = None.

(** [needle] is a substring of [hay], wherever it stands. *)
Definition occurs (needle hay : string) : Prop :=
  exists before after, hay = before ++ needle ++ after.

(** The last call about a socket in a trace. *)
Fixpoint last_socket_call (t : list event) : option event :=
  match t with
  | [] => None
  | e :: rest =>
      match last_socket_call rest with
      | Some e' => Some e'
      | None => match socket_of e with Some _ => Some e | None => None end
      end
  end.

(** The specification's words for the supplier: an inline list is split on
    white space, which is [str.split()] without a separator: runs of white
    space separate, and no piece is empty. *)
Fixpoint spec_split_whitespace (text : string) : list string :=
  match text with
  | EmptyString => []
  | String c rest =>
      if Py.isspace c then spec_split_whitespace rest
      else
        match rest with
        | EmptyString => [String c EmptyString]
        | String c' _ =>
            if Py.isspace c' then String c EmptyString :: spec_split_whitespace rest
            else match spec_split_whitespace rest with
                 | word :: words => String c word :: words
                 | [] => [String c EmptyString]
                 end
        end
    end.

(** *** Servers for the examples *)

(** A session in which every call returns and the reply is [reply]. *)
Definition answering (reply : string) : session :=
  {| socket_res := None; settimeout_res := None; connect_res := None;
     banner_res := inr "220 mail.example.org ESMTP"; send_res := None;
     reply_res := inr reply; sleep_res := None |}.

(** A server that gives the replies of the list, in order. *)
Definition replying (replies : list string) : server :=
  fun i => answering (nth i replies "").

(** A session whose [connect] raises an [IOError] with message [msg]. *)
Definition refusing (msg : string) : session :=
  {| socket_res := None; settimeout_res := None; connect_res := Some (IOError msg);
     banner_res := inr ""; send_res := None; reply_res := inr ""; sleep_res := None |}.

(** A session in which [socket.socket] itself raises. *)
Definition socketless (msg : string) : session :=
  {| socket_res := Some (IOError msg); settimeout_res := None; connect_res := None;
     banner_res := inr ""; send_res := None; reply_res := inr ""; sleep_res := None |}.

(** What the loop of [get_usernames] makes of one piece of the argument. *)
Definition entry_becomes (urlparse : string -> exn + ParseResult)
    (entry name : string) : Prop :=
  exists parsed,
    urlparse entry = inr parsed
    /\ name = if String.eqb (scheme parsed) "http" || String.eqb (scheme parsed) "https"
              then Py.strip "/" (path parsed)
              else entry.

(** The three candidates of the examples, and the server of the
    specification's example with replies 550 and 503. *)
Definition three : list string := ["root"; "admin"; "guest"].
Definition rejects_then_auth : server :=
  replying ["550 5.1.1 unknown user"; "503 5.5.1 authentication required"; "252 2.0.0 guest"].

(** The server whose first connect is still pending when the time is out. *)
Definition pending : server :=
  fun i => match i with
           | O => refusing "[Errno 115] Operation now in progress"
           | _ => answering "252 2.0.0 ok"
           end.

(** The server that refuses the first connection and answers the next. *)
Definition refused_once : server :=
  fun i => match i with
           | O => refusing "[Errno 111] Connection refused"
           | _ => answering "252 2.0.0 ok"
           end.

(** A server to which no connection is made in time: every [connect]
    raises the [socket.timeout] of the time that is out. *)
Definition timing_out : server := fun _ => refusing "timed out".

(** A server for a port above 65535: [connect] raises [OverflowError]. *)
Definition port_out_of_range : server :=
  fun _ => {| socket_res := None; settimeout_res := None;
              connect_res := Some (OtherException "OverflowError");
              banner_res := inr ""; send_res := None; reply_res := inr "";
              sleep_res := None |}.

(** * More of the script: definitions *)

(** The use of connections along a trace, from the socket that is open (if
    one is) before it: [None] when a socket is created while another is
    open or a call is made on a socket that is not the open one; otherwise
    the socket left open at the end.  Closing a closed socket does nothing. *)
Fixpoint track (t : list event) (open : option nat) : option (option nat) :=
  match t with
  | [] => Some open
  | e :: rest =>
      match e with
      | SocketNew id None =>
          match open with
          | None => track rest (Some id)
          | Some _ => None
          end
      | SetTimeout id _ _ | Connect id _ _ _ | Banner id _ | Send id _ _ | Reply id _ =>
          match open with
          | Some j => if Nat.eqb j id then track rest open else None
          | None => None
          end
      | Close id =>
          match open with
          | Some j => if Nat.eqb j id then track rest None else None
          | None => track rest None
          end
      | SocketNew _ (Some _) | Flush | Print _ | Sleep _ => track rest open
      end
  end.

(** The candidates for which a socket was asked for, in the order of the
    trace. *)
Fixpoint attempts (t : list event) : list nat :=
  match t with
  | [] => []
  | SocketNew id _ :: rest => id :: attempts rest
  | _ :: rest => attempts rest
  end.

(** The exception a recorded call raised, if it raised. *)
Definition raised (e : event) : option exn :=
  match e with
  | SocketNew _ res | SetTimeout _ _ res | Connect _ _ _ res | Send _ _ res => res
  | Banner _ (inl x) | Reply _ (inl x) => Some x
  | _ => None
  end.

(** What [except IOError] catches. *)
Definition is_io (x : exn) : bool :=
  match x with
  | IOError _ => true
  | _ => false
  end.

Definition io_or_none (res : option exn) : bool :=
  match res with
  | Some x => is_io x
  | None => true
  end.

Definition io_or_text (res : exn + string) : bool :=
  match res with
  | inl x => is_io x
  | inr _ => true
  end.

(** A session whose socket is created and whose other calls return or raise
    an [IOError]. *)
Definition only_io (ses : session) : bool :=
  match socket_res ses with None => true | Some _ => false end
  && io_or_none (settimeout_res ses) && io_or_none (connect_res ses)
  && io_or_text (banner_res ses) && io_or_none (send_res ses)
  && io_or_text (reply_res ses).

(** The candidates a server confirms when every call returns and no reply
    ends the scan: those whose reply has 252, [i] being the position of the
    first of [usernames]. *)
Fixpoint confirmed_by (reply : nat -> string) (i : nat) (usernames : list string)
  : list string :=
  match usernames with
  | [] => []
  | user :: rest =>
      if Py.contains "252" (reply i) then user :: confirmed_by reply (S i) rest
      else confirmed_by reply (S i) rest
  end.

(** A reply after which the loop goes on. *)
Definition goes_on (r : string) : bool :=
  Py.contains "252" r || Py.contains "550" r
  || negb (Py.contains "503" r || Py.contains "500" r).

(** The event is not the creation of a socket: [s] is bound when it
    happens. *)
Definition on_bound_socket (e : event) : bool :=
  match e with
  | SocketNew _ _ => false
  | _ => true
  end.

(** How often a character occurs in a text. *)
Fixpoint count_char (c : ascii) (text : string) : nat :=
  match text with
  | EmptyString => 0
  | String a rest => (if Ascii.eqb a c then 1 else 0) + count_char c rest
  end.

(** [sep.join(pieces)] for a separator of one character. *)
Fixpoint join (sep : ascii) (pieces : list string) : string :=
  match pieces with
  | [] => EmptyString
  | piece :: rest =>
      match rest with
      | [] => piece
      | _ => piece ++ String sep (join sep rest)
      end
  end.

(** What [parser.parse_args()] gives: [verbose] is [None] unless [-v] was
    given, and then the number of times it was given; the other numbers are
    [int]s, the port among them. *)
Record arguments : Type := {
  arg_verbose : option Z;
  arg_usernames : string;
  arg_ip : string;
  arg_timeout : Z;
  arg_sleep : Z;
  arg_port : Z
}.

(** [verify_smtp] as the block calls it, with [args.verbose] for
    [verbose]: when that is [None] the lines of the port run, and the test
    [verbose > 0] of line 60 raises [TypeError]. *)
Definition verify_smtp_called (int : string -> option Z) (verbose : option Z)
    (usernames : list string) (ip : string) (timeout_value sleep_value : Z)
    (port : port_arg) (net : server)
  : step (list string) :=
  match verbose with
  | Some v => verify_smtp int v usernames ip timeout_value sleep_value port net
  | None => bind (lift (resolve_port int port)) (fun _ => raise TypeError) entry
  end.

(** Lines 127-132: the list of the valid names, or the notice that there is
    none. *)
Definition report (valid_users : list string) : list event :=
  match valid_users with
  | [] => [Print "[!] No valid usernames found."]
  | _ => Print "[+] Valid usernames:"
         :: map (fun user => Print ("  - " ++ user)) valid_users
  end.

(** How the script ends: the exception that ends it, if one does, and the
    calls it made. *)
Record ending : Type := {
  failure : option exn;
  seen : list event
}.

(** Lines 113-132, from the parsed arguments on. *)
Definition main (int : string -> option Z) (isfile : string -> bool)
    (read : string -> read_result) (splitlines : string -> list string)
    (urlparse : string -> exn + ParseResult) (net : server) (args : arguments)
  : ending :=
  let (lines, usernames) :=
    get_usernames isfile read splitlines urlparse (arg_usernames args) in
  match usernames with
  | inl e => {| failure := Some e; seen := map Print lines |}
  | inr usernames =>
      match verify_smtp_called int (arg_verbose args) usernames (arg_ip args)
              (arg_timeout args) (arg_sleep args) (PInt (arg_port args)) net with
      | {| out := Val valid_users; log := t |} =>
          {| failure := None; seen := map Print lines ++ t ++ report valid_users |}
      | {| out := Exc e; log := t |} =>
          {| failure := Some e; seen := map Print lines ++ t |}
      | {| out := Brk; log := t |} =>
          {| failure := Some (OtherException "break"); seen := map Print lines ++ t |}
      end
  end.

(** A socket of Python 3: [send] takes bytes, and raises [TypeError] on the
    text the script gives it. *)
Definition bytes_only : server :=
  fun _ => {| socket_res := None; settimeout_res := None; connect_res := None;
              banner_res := inr "220 mail.example.org ESMTP";
              send_res := Some TypeError; reply_res := inr ""; sleep_res := None |}.

(** A server that accepts the connection and sends no banner in time. *)
Definition mute : server :=
  fun _ => {| socket_res := None; settimeout_res := None; connect_res := None;
              banner_res := inl (IOError "timed out");
              send_res := None; reply_res := inr ""; sleep_res := None |}.

(** A file system with the one file [users.txt]: two names and an empty
    line between them. *)
Definition only_users_txt : string -> bool := fun name => String.eqb name "users.txt".
Definition users_txt : string -> read_result :=
  fun _ => Content ("root" ++ newline ++ newline ++ "admin" ++ newline).

Definition mixed_replies : list string :=
  ["252 2.0.0 root"; "550 5.1.1 unknown user"; "250 2.1.5 guest"].

(** * Proofs *)

(** ** The model on examples *)

Example contains_mid : Py.contains "252" "x 252 ok" = true.
Proof. reflexivity. Qed.

Example split_double_space : Py.split " " "a  b" = ["a"; ""; "b"].
Proof. reflexivity. Qed.

Example strip_slashes : Py.strip "/" "/users/bob//" = "users/bob".
Proof. reflexivity. Qed.

Example int_padded : Py.int " 2_5 " = Some 25.
Proof. reflexivity. Qed.

Example int_empty : Py.int "" = None.
Proof. reflexivity. Qed.

Example int_blank : Py.int " " = None.
Proof. reflexivity. Qed.

Example parse_profile :
  Urllib.urlparse "https://example.com/users/bob/?tab=1#top"
  = inr {| scheme := "https"; netloc := "example.com"; path := "/users/bob/";
           params := ""; query := "tab=1"; fragment := "top" |}.
Proof. reflexivity. Qed.

Example parse_word :
  Urllib.urlparse "alice"
  = inr {| scheme := ""; netloc := ""; path := "alice";
           params := ""; query := ""; fragment := "" |}.
Proof. reflexivity. Qed.

Example supplier_mixed :
  get_usernames no_file no_read Lines.splitlines Urllib.urlparse
    "alice HTTP://example.com/bob/ alice"
  = ([], inr ["alice"; "bob"; "alice"]).
Proof. reflexivity. Qed.

Example splitlines_crlf :
  Lines.splitlines ("root" ++ String (ascii_of_nat 13) newline ++ "admin" ++ newline)
  = ["root"; "admin"].
Proof. reflexivity. Qed.

(** ** The membership test on text *)

Lemma prefix_occurs needle hay :
  String.prefix needle hay = true <-> exists after, hay = needle ++ after.
Proof.
  revert hay. induction needle as [|a needle IH]; intros hay.
  - split; [intros _; by exists hay|by destruct hay].
  - destruct hay as [|b hay].
    + split; [done|]. by intros [after H].
    + change (String.prefix (String a needle) (String b hay))
        with (if Ascii.ascii_dec a b then String.prefix needle hay else false).
      destruct (Ascii.ascii_dec a b) as [->|Hne].
      * rewrite IH. split; intros [after H]; exists after.
        -- rewrite H. reflexivity.
        -- change (String b hay = String b (needle ++ after)) in H. congruence.
      * split; [done|]. intros [after H].
        change (String b hay = String a (needle ++ after)) in H. congruence.
Qed.

(** [needle in hay] holds when, and only when, [needle] stands somewhere
    in [hay]. *)
Lemma contains_occurs needle hay :
  Py.contains needle hay = true <-> occurs needle hay.
Proof.
  unfold occurs. induction hay as [|c hay IH].
  - change (Py.contains needle "") with (String.prefix needle "" || false).
    rewrite orb_false_r, prefix_occurs. split.
    + intros [after H]. by exists "", after.
    + intros ([|b before] & after & H); [eauto|done].
  - change (Py.contains needle (String c hay))
      with (String.prefix needle (String c hay) || Py.contains needle hay).
    rewrite orb_true_iff, prefix_occurs, IH. split.
    + intros [[after H]|(before & after & H)].
      * by exists "", after.
      * exists (String c before), after. rewrite H. reflexivity.
    + intros ([|b before] & after & H); [left; eauto|].
      right. exists before, after.
      change (String c hay = String b (before ++ needle ++ after)) in H. congruence.
Qed.

(** ** Tactics *)

Ltac unfold_py :=
  unfold iteration, try_finally, try_except_IOError, probe, teardown,
    on_IOError, analyze, sleep, call, recv, when, print_mod, print, bind,
    emit, raise, break, pass, ret, get_s, set_s, append_valid, prepend.

(** Follow the script: split on the next answer of the world or the next
    test, and compute. *)
Ltac follow :=
  repeat (simpl;
          match goal with
          | |- context [match ?x with _ => _ end] => is_var x; destruct x
          | |- context [if ?b then _ else _] => destruct b eqn:?
          end);
  simpl.

Ltac paths i net l :=
  unfold_py; destruct (net i) as [so st co ba se re sl], l as [valid bound]; follow.

(** Membership in an explicit trace. *)
Ltac in_trace H :=
  repeat (apply elem_of_cons in H as [H|H];
          [try discriminate H; try (injection H as ?); subst|]);
  try (apply elem_of_nil in H; destruct H).

(** Tests on integers, as facts for [lia]. *)
Ltac flags :=
  repeat match goal with
         | H : (_ >? _) = true |- _ => apply Z.gtb_lt in H
         | H : (_ >? _) = false |- _ => rewrite Z.gtb_ltb in H; apply Z.ltb_ge in H
         | H : (_ <? _) = true |- _ => apply Z.ltb_lt in H
         | H : (_ <? _) = false |- _ => apply Z.ltb_ge in H
         | H : (_ =? _) = true |- _ => apply Z.eqb_eq in H
         | H : (_ =? _) = false |- _ => apply Z.eqb_neq in H
         end.

(** A turn whose sleep is known to return did not end in its sleep. *)
Ltac awake Hs :=
  try (destruct Hs as [Hs|Hs]; [flags; lia|discriminate Hs]).

(** Use what is known of the membership tests. *)
Ltac tests :=
  repeat match goal with
         | H : Py.contains _ _ = _ |- _ => rewrite H
         end.

(** ** One turn of the loop *)

Section Iteration.

Variable verbose : Z.
Variable ip : string.
Variable timeout_value sleep_value : Z.
Variable net : server.
Variable port : Z.

Local Abbreviation turn := (iteration verbose ip timeout_value sleep_value net port).
Local Abbreviation loop := (for_loop verbose ip timeout_value sleep_value net port).

Lemma prepend_out {A} t (r : step A) : out (prepend t r) = out r.
Proof. by destruct r. Qed.

Lemma prepend_vars {A} t (r : step A) : vars (prepend t r) = vars r.
Proof. by destruct r. Qed.

Lemma prepend_log {A} t (r : step A) : log (prepend t r) = (t ++ log r)%list.
Proof. by destruct r. Qed.

(** The events of a turn are about its own socket, or close the socket
    [s] was bound to before. *)
Lemma turn_sockets i user l e j :
  e ∈ log (turn i user l) -> socket_of e = Some j ->
  j = i \/ s l = Some j.
Proof.
  paths i net l; intros H; in_trace H; simpl; intros [= <-]; auto.
Qed.

Lemma turn_bound i user l j :
  s (vars (turn i user l)) = Some j -> j = i \/ s l = Some j.
Proof.
  paths i net l; intros [= <-]; auto.
Qed.

Lemma turn_fatal_socket i user l e :
  e ∈ log (turn i user l) -> fatal e = true -> socket_of e = Some i.
Proof.
  paths i net l; intros H; in_trace H; simpl; try discriminate; auto.
Qed.

(** After a fatal event the turn does not fall through. *)
Lemma turn_fatal_out i user l e :
  e ∈ log (turn i user l) -> fatal e = true ->
  forall v, out (turn i user l) <> Val v.
Proof.
  paths i net l; intros H; in_trace H; simpl; try discriminate;
    tests; simpl; discriminate.
Qed.

Lemma turn_fatal_status i user l e :
  verbose <= 0 -> sleep_returns sleep_value (net i) ->
  e ∈ log (turn i user l) -> fatal e = true ->
  out (turn i user l) = Brk
  /\ status_of (log (turn i user l)) = Aborted (reason_of e).
Proof.
  intros Hv. unfold sleep_returns.
  paths i net l; flags; try lia; intros Hs H; in_trace H; simpl; try discriminate;
    tests; simpl; try discriminate; awake Hs; split; reflexivity.
Qed.

(** A turn that falls through announced no abort. *)
Lemma turn_quiet i user l v :
  out (turn i user l) = Val v -> existsb announces (log (turn i user l)) = false.
Proof.
  paths i net l; try discriminate; reflexivity.
Qed.

Lemma turn_valid i user l :
  valid_users (vars (turn i user l)) = valid_users l
  \/ valid_users (vars (turn i user l)) = (valid_users l ++ [user])%list.
Proof.
  paths i net l; auto.
Qed.

Lemma turn_paced i user l :
  sleep_value <> 0 -> paced sleep_value (log (turn i user l)) = true.
Proof.
  intros Hs.
  paths i net l; flags; try lia; rewrite ?Z.eqb_refl; reflexivity.
Qed.

(** Every turn starts by asking for a socket. *)
Lemma turn_asks_socket i user l :
  SocketNew i (socket_res (net i)) ∈ log (turn i user l).
Proof.
  paths i net l; rewrite !elem_of_cons; auto.
Qed.

(** A connect failure without the marker lets the turn fall through. *)
Lemma turn_connect_failed i user l j ip' port' msg :
  verbose <= 0 -> sleep_returns sleep_value (net i) ->
  Connect j ip' port' (Some (IOError msg)) ∈ log (turn i user l) ->
  Py.contains "Operation now in progress" msg = false ->
  out (turn i user l) = Val tt.
Proof.
  intros Hv. unfold sleep_returns.
  paths i net l; flags; try lia; intros Hs H; in_trace H; simpl; try discriminate;
    awake Hs; try reflexivity; congruence.
Qed.

Lemma turn_connect_socket i user l j ip' port' res :
  Connect j ip' port' res ∈ log (turn i user l) -> j = i.
Proof.
  intros H. by destruct (turn_sockets i user l _ j H eq_refl) as [->|Hs];
    [|revert H Hs; paths i net l; intros H; in_trace H; congruence].
Qed.

End Iteration.

(** ** The loop *)

Lemma quiet_prints t :
  existsb announces t = false ->
  existsb (prints msg_auth) t = false
  /\ existsb (prints msg_unsupported) t = false
  /\ existsb (prints msg_failed) t = false.
Proof.
  induction t as [|e t IH]; simpl; [done|].
  intros [He Ht]%orb_false_elim. unfold announces in He.
  apply orb_false_elim in He as [[He1 He2]%orb_false_elim He3].
  rewrite He1, He2, He3. simpl. by apply IH.
Qed.

Lemma existsb_announces_status t1 t2 :
  existsb announces t1 = false -> status_of (t1 ++ t2) = status_of t2.
Proof.
  intros (H1 & H2 & H3)%quiet_prints. unfold status_of.
  by rewrite !existsb_app, H1, H2, H3.
Qed.

Lemma paced_app d t1 t2 :
  paced d t1 = true -> paced d t2 = true -> paced d (t1 ++ t2) = true.
Proof.
  intros H1 H2. induction t1 as [|e t1 IH]; [done|].
  destruct e; simpl in *; auto.
  destruct t1 as [|[] t1]; simpl in *; try discriminate.
  apply andb_true_iff in H1 as [-> H1]. simpl. by apply IH.
Qed.

Lemma paced_spec d t t1 id t2 :
  paced d t = true -> t = (t1 ++ Close id :: t2)%list -> exists t3, t2 = Sleep d :: t3.
Proof.
  revert t. induction t1 as [|e t1 IH]; intros t H ->; simpl in H.
  - destruct t2 as [|[] t2]; try discriminate.
    apply andb_true_iff in H as [H _]. apply Z.eqb_eq in H as ->. eauto.
  - apply (IH (t1 ++ Close id :: t2)%list); [|done].
    destruct e; auto.
    destruct t1 as [|[] t1]; simpl in *; try discriminate.
    by apply andb_true_iff in H as [_ H].
Qed.

Section Loop.

Variable verbose : Z.
Variable ip : string.
Variable timeout_value sleep_value : Z.
Variable net : server.
Variable port : Z.

Local Abbreviation turn := (iteration verbose ip timeout_value sleep_value net port).
Local Abbreviation loop := (for_loop verbose ip timeout_value sleep_value net port).

(** The three ways a loop with a candidate goes on. *)
Lemma loop_cons i user rest l :
  loop i (user :: rest) l =
  match turn i user l with
  | {| out := Val _; vars := l1; log := t1 |} => prepend t1 (loop (S i) rest l1)
  | {| out := Brk; vars := l1; log := t1 |} => {| out := Val tt; vars := l1; log := t1 |}
  | {| out := Exc e; vars := l1; log := t1 |} => {| out := Exc e; vars := l1; log := t1 |}
  end.
Proof. reflexivity. Qed.

(** Destruct the first turn of a loop, keeping what the turn lemma [L]
    says of it. *)
Ltac first_turn i user l o l1 t1 E :=
  rewrite loop_cons; destruct (turn i user l) as [o l1 t1] eqn:E.

Lemma loop_never_breaks usernames i l : out (loop i usernames l) <> Brk.
Proof.
  revert i l. induction usernames as [|user rest IH]; intros i l; [done|].
  first_turn i user l o l1 t1 E. destruct o as [[]| |e]; try done.
  rewrite prepend_out. apply IH.
Qed.

Lemma loop_fatal_socket usernames i l e :
  e ∈ log (loop i usernames l) -> fatal e = true ->
  exists j, socket_of e = Some j /\ (i <= j)%nat.
Proof.
  revert i l. induction usernames as [|user rest IH]; intros i l.
  { simpl. intros H; by apply elem_of_nil in H. }
  pose proof (turn_fatal_socket verbose ip timeout_value sleep_value net port i user l e) as Hf.
  first_turn i user l o l1 t1 E. simpl in Hf.
  destruct o as [[]| |x]; simpl; eauto.
  rewrite prepend_log. intros [H|H]%elem_of_app Hfe; eauto.
  destruct (IH _ _ H Hfe) as (j & ? & ?). exists j. split; [done|lia].
Qed.

(** Once a fatal event happened on the socket of candidate [i], no event
    is about the socket of a later candidate. *)
Lemma loop_stops usernames k l e i :
  (forall j, s l = Some j -> (j < k)%nat) ->
  e ∈ log (loop k usernames l) -> fatal e = true -> socket_of e = Some i ->
  forall e' j, e' ∈ log (loop k usernames l) -> socket_of e' = Some j -> (j <= i)%nat.
Proof.
  revert k l. induction usernames as [|user rest IH]; intros k l Hs.
  { simpl. intros H; by apply elem_of_nil in H. }
  pose proof (turn_fatal_socket verbose ip timeout_value sleep_value net port k user l e) as Hf.
  pose proof (turn_fatal_out verbose ip timeout_value sleep_value net port k user l e) as Ho.
  pose proof (turn_sockets verbose ip timeout_value sleep_value net port k user l) as Hk.
  pose proof (turn_bound verbose ip timeout_value sleep_value net port k user l) as Hb.
  pose proof (loop_fatal_socket rest (S k) (vars (turn k user l)) e) as Hl.
  assert (forall e' j, e' ∈ log (turn k user l) -> socket_of e' = Some j -> (j <= k)%nat)
    as Hle.
  { intros e' j He' Hj. destruct (Hk e' j He' Hj) as [->|Hj']; [lia|].
    apply Hs in Hj'. lia. }
  clear Hk. first_turn k user l o l1 t1 E. simpl in *.
  destruct o as [[]| |x]; simpl.
  - rewrite prepend_log. intros He Hfe Hi e' j He' Hj.
    apply elem_of_app in He as [He|He]; [by destruct (Ho He Hfe tt)|].
    destruct (Hl He Hfe) as (i' & Hi' & Hlt).
    assert (i' = i) as -> by congruence.
    apply elem_of_app in He' as [He'|He'].
    + specialize (Hle e' j He' Hj). lia.
    + eapply (IH (S k) l1); [|exact He|exact Hfe|exact Hi|exact He'|exact Hj].
      intros j' Hj'. destruct (Hb j' Hj') as [->|Hj'']; [lia|].
      apply Hs in Hj''. lia.
  - intros He Hfe Hi e' j He' Hj.
    assert (i = k) as -> by (specialize (Hf He Hfe); congruence).
    eauto.
  - intros He Hfe Hi e' j He' Hj.
    assert (i = k) as -> by (specialize (Hf He Hfe); congruence).
    eauto.
Qed.

(** After a fatal event the loop ends, the function returns, and the
    line printed tells the reason. *)
Lemma loop_fatal_status usernames k l e i :
  verbose <= 0 -> socket_of e = Some i -> sleep_returns sleep_value (net i) ->
  e ∈ log (loop k usernames l) -> fatal e = true ->
  out (loop k usernames l) = Val tt
  /\ status_of (log (loop k usernames l)) = Aborted (reason_of e).
Proof.
  intros Hv Hi Hsl. revert k l. induction usernames as [|user rest IH]; intros k l.
  { simpl. intros H; by apply elem_of_nil in H. }
  pose proof (turn_fatal_status verbose ip timeout_value sleep_value net port k user l e Hv)
    as Hf.
  pose proof (turn_fatal_socket verbose ip timeout_value sleep_value net port k user l e)
    as Hk.
  pose proof (turn_quiet verbose ip timeout_value sleep_value net port k user l) as Hq.
  assert (e ∈ log (turn k user l) -> fatal e = true ->
          out (turn k user l) = Brk
          /\ status_of (log (turn k user l)) = Aborted (reason_of e)) as Hf'.
  { intros He Hfe. apply Hf; try done.
    assert (i = k) as <- by (specialize (Hk He Hfe); congruence). done. }
  clear Hf Hk. first_turn k user l o l1 t1 E. simpl in *.
  destruct o as [[]| |x]; simpl.
  - rewrite prepend_log, prepend_out. intros He Hfe.
    apply elem_of_app in He as [He|He]; [by destruct (Hf' He Hfe)|].
    rewrite existsb_announces_status by eauto. by apply IH.
  - intros He Hfe. destruct (Hf' He Hfe) as [_ ?]. done.
  - intros He Hfe. by destruct (Hf' He Hfe).
Qed.

(** The confirmed list grows by a sublist of the candidates. *)
Lemma loop_valid usernames k l :
  exists found, valid_users (vars (loop k usernames l)) = (valid_users l ++ found)%list
                /\ sublist found usernames.
Proof.
  revert k l. induction usernames as [|user rest IH]; intros k l.
  { exists []. simpl. by rewrite app_nil_r. }
  pose proof (turn_valid verbose ip timeout_value sleep_value net port k user l) as Hv.
  first_turn k user l o l1 t1 E. simpl in Hv.
  destruct o as [[]| |x]; simpl.
  - rewrite prepend_vars. destruct (IH (S k) l1) as (found & -> & Hsub).
    destruct Hv as [->| ->].
    + exists found. split; [done|]. by apply sublist_cons.
    + exists (user :: found). rewrite <- app_assoc. split; [done|].
      by apply sublist_skip.
  - destruct Hv as [->| ->].
    + exists []. rewrite app_nil_r. split; [done|]. apply sublist_nil_l.
    + exists [user]. split; [done|]. apply sublist_skip, sublist_nil_l.
  - destruct Hv as [->| ->].
    + exists []. rewrite app_nil_r. split; [done|]. apply sublist_nil_l.
    + exists [user]. split; [done|]. apply sublist_skip, sublist_nil_l.
Qed.

Lemma loop_paced usernames k l :
  sleep_value <> 0 -> paced sleep_value (log (loop k usernames l)) = true.
Proof.
  intros Hs. revert k l. induction usernames as [|user rest IH]; intros k l; [done|].
  pose proof (turn_paced verbose ip timeout_value sleep_value net port k user l Hs) as Hp.
  first_turn k user l o l1 t1 E. simpl in Hp.
  destruct o as [[]| |x]; simpl; try done.
  rewrite prepend_log. by apply paced_app.
Qed.

(** After a connect failure without the marker on the socket of
    candidate [i], the next candidate, if there is one, is attempted. *)
Lemma loop_goes_on usernames k l i ip' port' msg next :
  verbose <= 0 -> sleep_returns sleep_value (net i) ->
  Connect i ip' port' (Some (IOError msg)) ∈ log (loop k usernames l) ->
  Py.contains "Operation now in progress" msg = false ->
  usernames !! (S i - k)%nat = Some next ->
  SocketNew (S i) (socket_res (net (S i))) ∈ log (loop k usernames l).
Proof.
  intros Hv Hsl. revert k l. induction usernames as [|user rest IH]; intros k l.
  { simpl. intros H; by apply elem_of_nil in H. }
  pose proof (turn_connect_failed verbose ip timeout_value sleep_value net port
                k user l i ip' port' msg Hv) as Hc.
  pose proof (turn_connect_socket verbose ip timeout_value sleep_value net port
                k user l i ip' port' (Some (IOError msg))) as Hi.
  assert (Connect i ip' port' (Some (IOError msg)) ∈ log (turn k user l) ->
          Py.contains "Operation now in progress" msg = false ->
          out (turn k user l) = Val tt) as Hc'.
  { intros He Hm. apply Hc; try done. by rewrite <- (Hi He). }
  clear Hc. first_turn k user l o l1 t1 E. simpl in *.
  destruct o as [[]| |x]; simpl.
  - rewrite prepend_log. intros He Hm Hn. apply elem_of_app. right.
    apply elem_of_app in He as [He|He].
    + rewrite (Hi He) in *. replace (S k - k)%nat with 1%nat in Hn by lia.
      destruct rest as [|user' rest']; [done|].
      rewrite loop_cons.
      pose proof (turn_asks_socket verbose ip timeout_value sleep_value net port
                    (S k) user' l1) as Ha.
      destruct (turn (S k) user' l1) as [[[]| |y] l2 t2]; simpl in *;
        rewrite ?prepend_log, ?elem_of_app; auto.
    + apply IH; try done.
      assert (S k <= i)%nat as Hle.
      { clear -He. revert He. generalize (S k) l1. clear.
        induction rest as [|u r IHr]; intros n l He.
        { simpl in He. by apply elem_of_nil in He. }
        rewrite loop_cons in He.
        pose proof (turn_connect_socket verbose ip timeout_value sleep_value net port
                      n u l i ip' port' (Some (IOError msg))) as Hn.
        destruct (turn n u l) as [[[]| |y] l2 t2]; simpl in *;
          rewrite ?prepend_log, ?elem_of_app in He;
          try (specialize (Hn He); lia).
        destruct He as [He|He]; [specialize (Hn He); lia|].
        apply IHr in He. lia. }
      replace (S i - k)%nat with (S (S i - S k)) in Hn by lia. done.
  - intros He Hm. specialize (Hc' He Hm). done.
  - intros He Hm. specialize (Hc' He Hm). done.
Qed.

End Loop.

(** ** The whole call *)

Section Call.

Variable int : string -> option Z.
Variable verbose : Z.
Variable ip : string.
Variable timeout_value sleep_value : Z.
Variable net : server.

Local Abbreviation call_of usernames port :=
  (verify_smtp int verbose usernames ip timeout_value sleep_value port net).
Local Abbreviation loop := (for_loop verbose ip timeout_value sleep_value net).

(** A port that [int] refuses ends the call before anything else. *)
Lemma verify_bad_port usernames port e :
  resolve_port int port = inl e ->
  call_of usernames port = {| out := Exc e; vars := entry; log := [] |}.
Proof.
  intros H. unfold verify_smtp, verify_smtp_body, bind, lift. by rewrite H.
Qed.

(** With a verbosity above zero the first print raises. *)
Lemma verify_noisy usernames port p :
  0 < verbose -> resolve_port int port = inr p ->
  call_of usernames port
  = {| out := Exc TypeError; vars := entry; log := [Print msg_connecting] |}.
Proof.
  intros Hv H. unfold verify_smtp, verify_smtp_body, bind, lift. rewrite H. simpl.
  apply Z.gtb_lt in Hv. by rewrite Hv.
Qed.

(** Otherwise the call is the loop, and returns [valid_users]. *)
Lemma verify_silent usernames port p :
  verbose <= 0 -> resolve_port int port = inr p ->
  call_of usernames port
  = {| out := match out (loop p 0%nat usernames entry) with
              | Val _ => Val (valid_users (vars (loop p 0%nat usernames entry)))
              | Brk => Brk
              | Exc e => Exc e
              end;
       vars := vars (loop p 0%nat usernames entry);
       log := log (loop p 0%nat usernames entry) |}.
Proof.
  intros Hv H. unfold verify_smtp, verify_smtp_body, bind, lift. rewrite H. simpl.
  assert ((verbose >? 0) = false) as -> by (rewrite Z.gtb_ltb; apply Z.ltb_ge; lia).
  simpl. change {| valid_users := []; s := None |} with entry.
  destruct (loop p 0%nat usernames entry) as [[[]| |e] l t]; simpl;
    by rewrite ?app_nil_r.
Qed.

(** A call that touched a socket ran silently, on a port that resolved. *)
Lemma verify_reached usernames port e j :
  e ∈ log (call_of usernames port) -> socket_of e = Some j ->
  verbose <= 0 /\ exists p, resolve_port int port = inr p.
Proof.
  intros He Hj. destruct (resolve_port int port) as [x|p] eqn:Hp.
  { rewrite (verify_bad_port _ _ _ Hp) in He. by apply elem_of_nil in He. }
  destruct (Z.lt_ge_cases 0 verbose) as [Hv|Hv]; [|split; [lia|eauto]].
  rewrite (verify_noisy _ _ _ Hv Hp) in He. simpl in He.
  apply list_elem_of_singleton in He as ->. discriminate.
Qed.

(** What the call returns is the list it built. *)
Lemma verify_returns usernames port found :
  out (call_of usernames port) = Val found ->
  found = valid_users (vars (call_of usernames port)).
Proof.
  destruct (resolve_port int port) as [x|p] eqn:Hp.
  { by rewrite (verify_bad_port _ _ _ Hp). }
  destruct (Z.lt_ge_cases 0 verbose) as [Hv|Hv].
  { by rewrite (verify_noisy _ _ _ Hv Hp). }
  rewrite (verify_silent _ _ _ Hv Hp). simpl.
  destruct (out (loop p 0%nat usernames entry)); congruence.
Qed.

Lemma verify_valid usernames port :
  sublist (valid_users (vars (call_of usernames port))) usernames.
Proof.
  destruct (resolve_port int port) as [x|p] eqn:Hp.
  { rewrite (verify_bad_port _ _ _ Hp). apply sublist_nil_l. }
  destruct (Z.lt_ge_cases 0 verbose) as [Hv|Hv].
  { rewrite (verify_noisy _ _ _ Hv Hp). apply sublist_nil_l. }
  rewrite (verify_silent _ _ _ Hv Hp). simpl.
  by destruct (loop_valid verbose ip timeout_value sleep_value net p usernames 0 entry)
    as (found & -> & ?).
Qed.

(** After a fatal event nothing is done for a later candidate, and when
    the sleep of its turn returns the call returns the reason. *)
Lemma verify_fatal usernames port e i :
  e ∈ log (call_of usernames port) -> fatal e = true -> socket_of e = Some i ->
  (forall e' j, e' ∈ log (call_of usernames port) -> socket_of e' = Some j -> (j <= i)%nat)
  /\ (sleep_returns sleep_value (net i) ->
      scan_result (call_of usernames port)
      = inr {| confirmed := valid_users (vars (call_of usernames port));
               status := Aborted (reason_of e) |}).
Proof.
  intros He Hf Hi. destruct (verify_reached _ _ _ _ He Hi) as (Hv & p & Hp).
  revert He. rewrite (verify_silent _ _ _ Hv Hp). simpl. intros He. split.
  - eapply loop_stops; eauto. simpl. discriminate.
  - intros Hs.
    destruct (loop_fatal_status verbose ip timeout_value sleep_value net p
                usernames 0 entry e i Hv Hi Hs He Hf) as [Ho Hst].
    unfold scan_result. rewrite Ho. by rewrite Hst.
Qed.

End Call.

(** * The claims *)

Section Claims.

Variable int : string -> option Z.
Variable verbose : Z.
Variable ip : string.
Variable timeout_value sleep_value : Z.
Variable net : server.

Local Abbreviation call_of usernames port :=
  (verify_smtp int verbose usernames ip timeout_value sleep_value port net).
Local Abbreviation turn := (iteration verbose ip timeout_value sleep_value net).
Local Abbreviation loop := (for_loop verbose ip timeout_value sleep_value net).

(** A reply is read only in a silent turn in which every call before it
    returned. *)
Lemma turn_reply_inv port i user l j r :
  Reply j (inr r) ∈ log (turn port i user l) ->
  verbose <= 0
  /\ exists banner sl,
      net i = {| socket_res := None; settimeout_res := None; connect_res := None;
                 banner_res := inr banner; send_res := None; reply_res := inr r;
                 sleep_res := sl |}.
Proof.
  unfold_py. destruct (net i) as [so st co ba se re sl] eqn:E, l as [valid bound].
  follow; flags; intros H; in_trace H; (split; [lia|eauto]).
Qed.

(** What a turn makes of the reply it read, by the tests of the script in
    their order. *)
Lemma turn_classifies port i user rest l r :
  sleep_returns sleep_value (net i) ->
  Reply i (inr r) ∈ log (turn port i user l) ->
  if Py.contains "252" r then
    valid_users (vars (turn port i user l)) = (valid_users l ++ [user])%list
    /\ loop port i (user :: rest) l
       = prepend (log (turn port i user l)) (loop port (S i) rest (vars (turn port i user l)))
  else
    valid_users (vars (turn port i user l)) = valid_users l
    /\ if Py.contains "550" r then
         loop port i (user :: rest) l
         = prepend (log (turn port i user l)) (loop port (S i) rest (vars (turn port i user l)))
       else if Py.contains "503" r then
         Print msg_auth ∈ log (turn port i user l)
         /\ loop port i (user :: rest) l
            = {| out := Val tt; vars := vars (turn port i user l);
                 log := log (turn port i user l) |}
       else if Py.contains "500" r then
         Print msg_unsupported ∈ log (turn port i user l)
         /\ loop port i (user :: rest) l
            = {| out := Val tt; vars := vars (turn port i user l);
                 log := log (turn port i user l) |}
       else
         loop port i (user :: rest) l
         = prepend (log (turn port i user l)) (loop port (S i) rest (vars (turn port i user l))).
Proof.
  intros Hs H. destruct (turn_reply_inv _ _ _ _ _ _ H) as (Hv & banner & sl & E).
  clear H. revert Hs. unfold sleep_returns. rewrite loop_cons. unfold_py. rewrite E.
  destruct l as [valid bound].
  assert ((verbose >? 0) = false) as -> by (rewrite Z.gtb_ltb; apply Z.ltb_ge; lia).
  assert ((verbose >? 1) = false) as -> by (rewrite Z.gtb_ltb; apply Z.ltb_ge; lia).
  simpl. intros Hs.
  follow; flags; try lia; awake Hs; repeat split; rewrite ?elem_of_cons; auto 12.
Qed.

(** C1: when the reply of a candidate is read, the four codes are looked
    for anywhere in it, in the order 252, 550, 503, 500, and the first
    found decides: with 252 the candidate is appended to the confirmed
    list and the loop goes on; without 252 the list is left as it was, and
    with 550 the loop goes on with the next candidate; else with 503, and
    else with 500, the loop ends after the line that tells which; a reply
    with none of them lets the loop go on.  The loop goes on or ends when
    the sleep of the turn, if there is one, returns. *)
Theorem classification_precedence port i user rest l r :
  sleep_returns sleep_value (net i) ->
  Reply i (inr r) ∈ log (turn port i user l) ->
  (occurs "252" r ->
   valid_users (vars (turn port i user l)) = (valid_users l ++ [user])%list
   /\ loop port i (user :: rest) l
      = prepend (log (turn port i user l)) (loop port (S i) rest (vars (turn port i user l))))
  /\ (~ occurs "252" r ->
      valid_users (vars (turn port i user l)) = valid_users l
      /\ (occurs "550" r ->
          loop port i (user :: rest) l
          = prepend (log (turn port i user l))
              (loop port (S i) rest (vars (turn port i user l))))
      /\ (~ occurs "550" r -> occurs "503" r ->
          Print msg_auth ∈ log (turn port i user l)
          /\ loop port i (user :: rest) l
             = {| out := Val tt; vars := vars (turn port i user l);
                  log := log (turn port i user l) |})
      /\ (~ occurs "550" r -> ~ occurs "503" r -> occurs "500" r ->
          Print msg_unsupported ∈ log (turn port i user l)
          /\ loop port i (user :: rest) l
             = {| out := Val tt; vars := vars (turn port i user l);
                  log := log (turn port i user l) |})
      /\ (~ occurs "550" r -> ~ occurs "503" r -> ~ occurs "500" r ->
          loop port i (user :: rest) l
          = prepend (log (turn port i user l))
              (loop port (S i) rest (vars (turn port i user l))))).
Proof.
  intros Hs H. pose proof (turn_classifies port i user rest l r Hs H) as Hc.
  rewrite <- !contains_occurs.
  destruct (Py.contains "252" r).
  { split; [done|]. intros Hn. by destruct Hn. }
  split; [done|]. intros _. destruct Hc as [Hvalid Hc]. split; [done|].
  destruct (Py.contains "550" r).
  { split; [done|]. split; [|split]; intros Hn; by destruct Hn. }
  split; [done|]. destruct (Py.contains "503" r).
  { split; [done|]. split; intros _ Hn; by destruct Hn. }
  split; [done|]. destruct (Py.contains "500" r).
  { split; [done|]. intros _ _ Hn. by destruct Hn. }
  split; [done|]. done.
Qed.

(** C2: once the reply of a candidate has 503 or 500 and neither 252 nor
    550, no call is made on the socket of a later candidate, and (when the
    sleep of that turn, if there is one, returns) the scan returns as
    aborted, for authentication when the reply has 503 and as unsupported
    otherwise. *)
Theorem abort_reply_stops_scan usernames port i r :
  Reply i (inr r)
    ∈ log (verify_smtp int verbose usernames ip timeout_value sleep_value port net) ->
  ~ occurs "252" r -> ~ occurs "550" r -> occurs "503" r \/ occurs "500" r ->
  (forall e j,
      e ∈ log (verify_smtp int verbose usernames ip timeout_value sleep_value port net) ->
      socket_of e = Some j -> (j <= i)%nat)
  /\ (sleep_returns sleep_value (net i) ->
      (occurs "503" r ->
       scan_result (verify_smtp int verbose usernames ip timeout_value sleep_value port net)
       = inr {| confirmed :=
                  valid_users
                    (vars (verify_smtp int verbose usernames ip timeout_value sleep_value
                             port net));
                status := Aborted AuthRequired |})
      /\ (~ occurs "503" r ->
          scan_result (verify_smtp int verbose usernames ip timeout_value sleep_value
                         port net)
          = inr {| confirmed :=
                     valid_users
                       (vars (verify_smtp int verbose usernames ip timeout_value
                                sleep_value port net));
                   status := Aborted Unsupported |})).
Proof.
  rewrite <- !contains_occurs. intros H H252 H550 H50x.
  apply not_true_is_false in H252, H550.
  destruct (verify_fatal int verbose ip timeout_value sleep_value net usernames port
              (Reply i (inr r)) i H) as [Hlater Hresult]; [|done|].
  { simpl. rewrite H252, H550. simpl. destruct H50x as [->| ->]; [done|].
    by rewrite orb_true_r. }
  split; [done|]. intros Hs. specialize (Hresult Hs). simpl in Hresult.
  destruct (Py.contains "503" r); split; try done; intros Hn; by destruct Hn.
Qed.

(** C5, as the code has it: with a delay other than zero, every close of a
    connection is followed at once by a sleep of that delay, in the turns
    that end the scan as in the others. *)
Theorem sleep_follows_every_close usernames port t1 id t2 :
  sleep_value <> 0 ->
  log (verify_smtp int verbose usernames ip timeout_value sleep_value port net)
  = (t1 ++ Close id :: t2)%list ->
  exists t3, t2 = Sleep sleep_value :: t3.
Proof.
  intros Hs. apply paced_spec.
  destruct (resolve_port int port) as [x|p] eqn:Hp.
  { by rewrite (verify_bad_port _ _ _ _ _ _ _ _ _ Hp). }
  destruct (Z.lt_ge_cases 0 verbose) as [Hv|Hv].
  { by rewrite (verify_noisy _ _ _ _ _ _ _ _ _ Hv Hp). }
  rewrite (verify_silent _ _ _ _ _ _ _ _ _ Hv Hp). simpl. by apply loop_paced.
Qed.

(** C10: the list a call returns is a subsequence of the candidates: its
    elements are candidates, in the order of the input, none more often
    than the input has it. *)
Theorem confirmed_is_subsequence usernames port found :
  out (verify_smtp int verbose usernames ip timeout_value sleep_value port net) = Val found ->
  sublist found usernames
  /\ (forall user, user ∈ found -> user ∈ usernames)
  /\ (forall user,
        length (filter (eq user) found) <= length (filter (eq user) usernames))%nat.
Proof.
  intros H. apply verify_returns in H as ->.
  pose proof (verify_valid int verbose ip timeout_value sleep_value net usernames port) as Hsub.
  split; [done|]. split.
  - intros user Hu. by eapply elem_of_sublist.
  - intros user. apply sublist_length.
    generalize dependent
      (valid_users
         (vars (verify_smtp int verbose usernames ip timeout_value sleep_value port net))).
    intros found Hf. induction Hf as [|x l1 l2 _ IH|x l1 l2 _ IH].
    + done.
    + rewrite !filter_cons. destruct (decide (user = x)); [by apply sublist_skip|done].
    + rewrite filter_cons. destruct (decide (user = x)); [by apply sublist_cons|done].
Qed.

(** The socket a turn created is closed in that turn, and no call is made
    on a socket after the close. *)
Lemma turn_closes_socket port i user l :
  socket_res (net i) = None ->
  last_socket_call (log (turn port i user l)) = Some (Close i).
Proof.
  paths i net l; intros H; try discriminate H; reflexivity.
Qed.

(** With a verbosity of zero or less and a port that resolves, no
    candidate means no call at all and a completed scan. *)
Lemma empty_scan_silent port p :
  verbose <= 0 -> resolve_port int port = inr p ->
  call_of [] port = {| out := Val []; vars := entry; log := [] |}
  /\ scan_result (call_of [] port) = inr {| confirmed := []; status := Completed |}.
Proof.
  intros Hv Hp. by rewrite (verify_silent _ _ _ _ _ _ _ _ _ Hv Hp).
Qed.

End Claims.

(** ** The supplier *)

Section SupplierFacts.

Variable isfile : string -> bool.
Variable read : string -> read_result.
Variable splitlines : string -> list string.
Variable urlparse : string -> exn + ParseResult.

Lemma username_of_spec entry name :
  username_of urlparse entry = inr name -> entry_becomes urlparse entry name.
Proof.
  unfold username_of, entry_becomes. destruct (urlparse entry) as [e|parsed]; [done|].
  intros H. exists parsed. split; [done|].
  destruct (String.eqb (scheme parsed) "http" || String.eqb (scheme parsed) "https");
    congruence.
Qed.

Lemma collect_spec entries usernames names :
  collect urlparse entries usernames = inr names ->
  exists new, names = (usernames ++ new)%list /\ Forall2 (entry_becomes urlparse) entries new.
Proof.
  revert usernames. induction entries as [|entry rest IH]; intros usernames; simpl.
  - intros [= <-]. exists []. by rewrite app_nil_r.
  - destruct (username_of urlparse entry) as [e|name] eqn:E; [done|].
    intros (new & -> & Hnew)%IH. exists (name :: new).
    rewrite <- app_assoc. split; [done|].
    constructor; [by apply username_of_spec|done].
Qed.

Lemma collect_total entries usernames :
  (forall entry, entry ∈ entries -> exists parsed, urlparse entry = inr parsed) ->
  exists names, collect urlparse entries usernames = inr names.
Proof.
  revert usernames. induction entries as [|entry rest IH]; intros usernames H; simpl.
  - eauto.
  - destruct (H entry) as [parsed Hp]; [by left|].
    unfold username_of. rewrite Hp.
    destruct (String.eqb (scheme parsed) "http" || String.eqb (scheme parsed) "https");
      apply IH; intros e He; apply H; by right.
Qed.

(** C6, as the code has it: an argument that is not empty and names no
    file is cut at every single space; each piece gives one candidate, in
    order: the path without the slashes around it when the piece parses
    with scheme http or https, the piece itself otherwise.  Nothing is
    printed, and a list is returned whenever the parser raises on no
    piece. *)
Theorem inline_candidates usernames_arg :
  usernames_arg <> "" -> isfile usernames_arg = false ->
  fst (get_usernames isfile read splitlines urlparse usernames_arg) = []
  /\ (forall names,
        snd (get_usernames isfile read splitlines urlparse usernames_arg) = inr names ->
        Forall2 (entry_becomes urlparse) (Py.split " " usernames_arg) names)
  /\ ((forall entry, entry ∈ Py.split " " usernames_arg ->
                     exists parsed, urlparse entry = inr parsed) ->
      exists names, snd (get_usernames isfile read splitlines urlparse usernames_arg) = inr names).
Proof.
  intros Hne Hfile. unfold get_usernames. rewrite Hfile.
  destruct (String.eqb_spec usernames_arg "") as [->|_]; [done|]. simpl.
  split; [done|]. split.
  - intros names (new & -> & H)%collect_spec. done.
  - apply collect_total.
Qed.

End SupplierFacts.

(** ** The claims on concrete runs *)

(** C6, as stated, fails: two spaces in a row give an empty candidate, and
    a tab does not separate; the split on white space gives neither. *)
Lemma inline_split_is_not_on_whitespace :
  get_usernames no_file no_read Lines.splitlines Urllib.urlparse "alice  bob"
  = ([], inr ["alice"; ""; "bob"])
  /\ spec_split_whitespace "alice  bob" = ["alice"; "bob"]
  /\ get_usernames no_file no_read Lines.splitlines Urllib.urlparse
       ("alice" ++ String (ascii_of_nat 9) "bob")
     = ([], inr ["alice" ++ String (ascii_of_nat 9) "bob"])
  /\ spec_split_whitespace ("alice" ++ String (ascii_of_nat 9) "bob") = ["alice"; "bob"].
Proof. repeat split; reflexivity. Qed.

Lemma inline_candidates_witness :
  Forall2 (entry_becomes Urllib.urlparse)
    ["alice"; "HTTP://example.com/bob/"; "alice"] ["alice"; "bob"; "alice"].
Proof.
  destruct (inline_candidates no_file no_read Lines.splitlines Urllib.urlparse
              "alice HTTP://example.com/bob/ alice" ltac:(discriminate) eq_refl)
    as (_ & H & _).
  exact (H ["alice"; "bob"; "alice"] eq_refl).
Defined.

(** C7, as the code has it: [None] and the text of one space stand for
    port 25; any other text goes through [int]: a text [int] refuses ends
    the call with [ValueError] before any call to the outside, and a text
    [int] takes stands for its number. *)
Theorem port_resolution (int : string -> option Z) verbose usernames ip
    timeout_value sleep_value net :
  verify_smtp int verbose usernames ip timeout_value sleep_value PNone net
  = verify_smtp int verbose usernames ip timeout_value sleep_value (PInt 25) net
  /\ verify_smtp int verbose usernames ip timeout_value sleep_value (PStr " ") net
     = verify_smtp int verbose usernames ip timeout_value sleep_value (PInt 25) net
  /\ (forall text,
        text <> " " -> int text = None ->
        verify_smtp int verbose usernames ip timeout_value sleep_value (PStr text) net
        = {| out := Exc ValueError; vars := entry; log := [] |})
  /\ (forall text n,
        text <> " " -> int text = Some n ->
        verify_smtp int verbose usernames ip timeout_value sleep_value (PStr text) net
        = verify_smtp int verbose usernames ip timeout_value sleep_value (PInt n) net).
Proof.
  split; [done|]. split; [done|]. split.
  - intros text Hne Hint. apply verify_bad_port. unfold resolve_port.
    destruct (String.eqb_spec text " ") as [->|_]; [done|]. by rewrite Hint.
  - intros text n Hne Hint. unfold verify_smtp, verify_smtp_body, resolve_port.
    destruct (String.eqb_spec text " ") as [->|_]; [done|]. by rewrite Hint.
Qed.

(** C7, as stated, fails: the text of length zero is not taken for the
    default; [int] refuses it. *)
Lemma empty_port_is_an_error :
  verify_smtp Py.int 0 ["root"] "192.0.2.7" 5 0 (PStr "") (replying ["252 2.0.0 root"])
  = {| out := Exc ValueError; vars := entry; log := [] |}.
Proof. reflexivity. Qed.

Lemma port_resolution_witness :
  verify_smtp Py.int 0 ["root"] "192.0.2.7" 5 0 (PStr "smtp") (replying ["252 2.0.0 root"])
  = {| out := Exc ValueError; vars := entry; log := [] |}.
Proof.
  exact (proj1 (proj2 (proj2 (port_resolution Py.int 0 ["root"] "192.0.2.7" 5 0
                                (replying ["252 2.0.0 root"]))))
           "smtp" ltac:(discriminate) eq_refl).
Defined.

(** C4 on the code: with verbosity 1 a call without candidates makes no
    connection, and does not return: the first print raises. *)
Theorem empty_scan_raises_when_verbose (int : string -> option Z) ip timeout_value
    sleep_value net :
  verify_smtp int 1 [] ip timeout_value sleep_value (PInt 25) net
  = {| out := Exc TypeError; vars := entry; log := [Print msg_connecting] |}.
Proof. reflexivity. Qed.

(** C9 on the code: the same candidate, server and settings; verbosity 0
    returns the confirmed list, verbosity 1 raises before any connection. *)
Theorem verbosity_changes_the_outcome :
  scan_result
    (verify_smtp Py.int 0 ["root"] "192.0.2.7" 5 0 (PInt 25) (replying ["252 2.0.0 root"]))
  = inr {| confirmed := ["root"]; status := Completed |}
  /\ verify_smtp Py.int 1 ["root"] "192.0.2.7" 5 0 (PInt 25) (replying ["252 2.0.0 root"])
     = {| out := Exc TypeError; vars := entry; log := [Print msg_connecting] |}.
Proof. split; reflexivity. Qed.

(** C8 on the code: when [socket.socket] raises for the first candidate,
    the handler lets the error pass and the close of the [finally] block
    finds [s] unbound: the call ends with [UnboundLocalError]. *)
Theorem teardown_without_socket :
  verify_smtp Py.int 0 ["root"; "admin"] "192.0.2.7" 5 0 (PInt 25)
    (fun _ => socketless "[Errno 24] Too many open files")
  = {| out := Exc UnboundLocalError; vars := entry;
       log := [Flush; SocketNew 0 (Some (IOError "[Errno 24] Too many open files"))] |}.
Proof. reflexivity. Qed.

(** C5, as stated, fails: the turn that ends the scan on a 503 reply
    sleeps as well. *)
Lemma abort_turn_sleeps :
  verify_smtp Py.int 0 ["root"; "admin"] "192.0.2.7" 5 2 (PInt 25)
    (replying ["503 5.5.1 Error: authentication required"; "252 2.0.0 admin"])
  = {| out := Val [];
       vars := {| valid_users := []; s := Some 0%nat |};
       log := [Flush; SocketNew 0 None; SetTimeout 0 5 None;
               Connect 0 "192.0.2.7" 25 None;
               Banner 0 (inr "220 mail.example.org ESMTP");
               Send 0 ("VRFY root" ++ newline) None;
               Reply 0 (inr "503 5.5.1 Error: authentication required");
               Print msg_auth; Close 0; Sleep 2; Flush] |}.
Proof. reflexivity. Qed.

Lemma sleep_follows_every_close_witness :
  log (verify_smtp Py.int 0 ["root"; "admin"] "192.0.2.7" 5 2 (PInt 25)
         (replying ["503 5.5.1 Error: authentication required"; "252 2.0.0 admin"]))
  = ([Flush; SocketNew 0 None; SetTimeout 0 5 None; Connect 0 "192.0.2.7" 25 None;
      Banner 0 (inr "220 mail.example.org ESMTP");
      Send 0 ("VRFY root" ++ newline) None;
      Reply 0 (inr "503 5.5.1 Error: authentication required");
      Print msg_auth] ++ Close 0 :: [Sleep 2; Flush])%list
  /\ exists t3, [Sleep 2; Flush] = Sleep 2 :: t3.
Proof.
  split; [reflexivity|].
  exact (sleep_follows_every_close Py.int 0 "192.0.2.7" 5 2
           (replying ["503 5.5.1 Error: authentication required"; "252 2.0.0 admin"])
           ["root"; "admin"] (PInt 25)
           [Flush; SocketNew 0 None; SetTimeout 0 5 None;
            Connect 0 "192.0.2.7" 25 None;
            Banner 0 (inr "220 mail.example.org ESMTP");
            Send 0 ("VRFY root" ++ newline) None;
            Reply 0 (inr "503 5.5.1 Error: authentication required");
            Print msg_auth]
           0%nat [Sleep 2; Flush] ltac:(discriminate) eq_refl).
Defined.

Lemma classification_precedence_witness :
  valid_users
    (vars (iteration 0 "192.0.2.7" 5 2 (replying ["550 5.1.1 see also 252"]) 25
             0 "root" entry)) = ["root"]
  /\ for_loop 0 "192.0.2.7" 5 2 (replying ["550 5.1.1 see also 252"]) 25 0
       ["root"; "admin"] entry
     = prepend
         (log (iteration 0 "192.0.2.7" 5 2 (replying ["550 5.1.1 see also 252"]) 25
                 0 "root" entry))
         (for_loop 0 "192.0.2.7" 5 2 (replying ["550 5.1.1 see also 252"]) 25 1 ["admin"]
            (vars (iteration 0 "192.0.2.7" 5 2 (replying ["550 5.1.1 see also 252"]) 25
                     0 "root" entry))).
Proof.
  exact (proj1 (classification_precedence 0 "192.0.2.7" 5 2
                  (replying ["550 5.1.1 see also 252"]) 25
                  0%nat "root" ["admin"] entry "550 5.1.1 see also 252"
                  (or_intror eq_refl) ltac:(vm_compute; repeat constructor))
           (ex_intro _ "550 5.1.1 see also " (ex_intro _ "" eq_refl))).
Defined.

Lemma abort_reply_stops_scan_witness :
  (forall e j,
      e ∈ log (verify_smtp Py.int 0 three "192.0.2.7" 5 0 (PInt 25) rejects_then_auth) ->
      socket_of e = Some j -> (j <= 1)%nat)
  /\ scan_result (verify_smtp Py.int 0 three "192.0.2.7" 5 0 (PInt 25) rejects_then_auth)
     = inr {| confirmed := []; status := Aborted AuthRequired |}.
Proof.
  destruct (abort_reply_stops_scan Py.int 0 "192.0.2.7" 5 0 rejects_then_auth three
              (PInt 25) 1%nat "503 5.5.1 authentication required"
              ltac:(vm_compute; repeat constructor)
              ltac:(intros H; apply contains_occurs in H; discriminate H)
              ltac:(intros H; apply contains_occurs in H; discriminate H)
              (or_introl (ex_intro _ "" (ex_intro _ " 5.5.1 authentication required"
                                           eq_refl))))
    as [Hlater Hresult].
  split; [exact Hlater|].
  exact (proj1 (Hresult (or_introl eq_refl))
           (ex_intro _ "" (ex_intro _ " 5.5.1 authentication required" eq_refl))).
Defined.

Lemma confirmed_is_subsequence_witness :
  sublist ["root"; "guest"] three
  /\ (forall user, user ∈ ["root"; "guest"] -> user ∈ three)
  /\ (forall user, length (filter (eq user) ["root"; "guest"])
                   <= length (filter (eq user) three))%nat.
Proof.
  exact (confirmed_is_subsequence Py.int 0 "192.0.2.7" 5 0
           (replying ["252 2.0.0 root"; "550 5.1.1 unknown user"; "252 2.0.0 guest"])
           three (PInt 25) ["root"; "guest"] eq_refl).
Defined.

(** The example of the specification: replies 252, 550, 252 with no fatal
    condition give a completed scan that confirms the first and the third
    candidate, in that order. *)
Lemma three_replies (int : string -> option Z) c0 c1 c2 ip timeout_value :
  scan_result
    (verify_smtp int 0 [c0; c1; c2] ip timeout_value 0 (PInt 25)
       (replying ["252 2.0.0 ok"; "550 5.1.1 unknown user"; "252 2.0.0 ok"]))
  = inr {| confirmed := [c0; c2]; status := Completed |}.
Proof. reflexivity. Qed.

Lemma empty_scan_silent_witness :
  verify_smtp Py.int 0 [] "192.0.2.7" 5 0 PNone pending
  = {| out := Val []; vars := entry; log := [] |}
  /\ scan_result (verify_smtp Py.int 0 [] "192.0.2.7" 5 0 PNone pending)
     = inr {| confirmed := []; status := Completed |}.
Proof.
  exact (empty_scan_silent Py.int 0 "192.0.2.7" 5 0 pending PNone 25 ltac:(lia) eq_refl).
Defined.

Lemma turn_closes_socket_witness :
  last_socket_call (log (iteration 0 "192.0.2.7" 5 0 refused_once 25 0 "root" entry))
  = Some (Close 0).
Proof.
  exact (turn_closes_socket 0 "192.0.2.7" 5 0 refused_once 25 0%nat "root" entry eq_refl).
Defined.

(** * More of the script: proofs *)

(** ** The engine: what the trace of a call looks like *)

Lemma track_app t1 t2 open :
  track (t1 ++ t2) open
  = match track t1 open with
    | Some open' => track t2 open'
    | None => None
    end.
Proof.
  revert open. induction t1 as [|e t1 IH]; intros open; [done|].
  destruct e as [| |id [x|]|id ? ?|id ? ? ?|id ?|id ? ?|id ?|id|]; simpl; auto;
    destruct open as [j|]; auto; destruct (Nat.eqb j id); auto.
Qed.

Lemma attempts_app t1 t2 : attempts (t1 ++ t2) = (attempts t1 ++ attempts t2)%list.
Proof.
  induction t1 as [|e t1 IH]; [done|]. destruct e; simpl; by rewrite ?IH.
Qed.

Section Trace.

Variable verbose : Z.
Variable ip : string.
Variable timeout_value sleep_value : Z.
Variable net : server.
Variable port : Z.

Local Abbreviation turn := (iteration verbose ip timeout_value sleep_value net port).
Local Abbreviation loop := (for_loop verbose ip timeout_value sleep_value net port).

(** What holds of every event of every turn holds of every event of the
    loop, for the candidate of its turn. *)
Lemma loop_events (P : nat -> string -> event -> Prop) usernames k l e :
  (forall i user l' e', e' ∈ log (turn i user l') -> P i user e') ->
  e ∈ log (loop k usernames l) ->
  exists i user, (k <= i)%nat /\ usernames !! (i - k)%nat = Some user /\ P i user e.
Proof.
  intros HP. revert k l. induction usernames as [|user rest IH]; intros k l.
  { simpl. intros H; by apply elem_of_nil in H. }
  rewrite loop_cons. pose proof (HP k user l e) as Hk.
  destruct (turn k user l) as [[[]| |x] l1 t1]; simpl in *.
  - rewrite prepend_log. intros [H|H]%elem_of_app.
    + exists k, user. rewrite Nat.sub_diag. eauto.
    + destruct (IH _ _ H) as (i & u & Hle & Hu & Hp). exists i, u.
      split; [lia|]. split; [|done].
      replace (i - k)%nat with (S (i - S k)) by lia. done.
  - intros H. exists k, user. rewrite Nat.sub_diag. eauto.
  - intros H. exists k, user. rewrite Nat.sub_diag. eauto.
Qed.

Lemma turn_track i user l :
  track (log (turn i user l)) None = Some None.
Proof.
  paths i net l;
    try match goal with
        | H : (?n =? ?n)%nat = false |- _ => rewrite Nat.eqb_refl in H; discriminate H
        end; reflexivity.
Qed.

Lemma loop_track usernames k l :
  track (log (loop k usernames l)) None = Some None.
Proof.
  revert k l. induction usernames as [|user rest IH]; intros k l; [done|].
  rewrite loop_cons. pose proof (turn_track k user l) as Ht.
  destruct (turn k user l) as [[[]| |x] l1 t1]; simpl in *; try done.
  by rewrite prepend_log, track_app, Ht.
Qed.

Lemma turn_attempts i user l : attempts (log (turn i user l)) = [i].
Proof. paths i net l; reflexivity. Qed.

Lemma loop_attempts usernames k l :
  exists n, (n <= length usernames)%nat /\ attempts (log (loop k usernames l)) = seq k n.
Proof.
  revert k l. induction usernames as [|user rest IH]; intros k l.
  { by exists 0%nat. }
  rewrite loop_cons. pose proof (turn_attempts k user l) as Ht.
  destruct (turn k user l) as [[[]| |x] l1 t1]; simpl in *.
  - destruct (IH (S k) l1) as (n & Hn & Hs). exists (S n). split; [lia|].
    by rewrite prepend_log, attempts_app, Ht, Hs.
  - exists 1%nat. split; [lia|done].
  - exists 1%nat. split; [lia|done].
Qed.

Lemma turn_send i user l j command res :
  Send j command res ∈ log (turn i user l) ->
  j = i /\ command = "VRFY " ++ user ++ newline.
Proof.
  paths i net l; intros H; in_trace H; auto.
Qed.

Lemma turn_settings i user l e :
  e ∈ log (turn i user l) ->
  match e with
  | Connect _ ip' port' _ => ip' = ip /\ port' = port
  | SetTimeout _ seconds _ => seconds = timeout_value
  | Sleep seconds => seconds = sleep_value /\ sleep_value <> 0
  | _ => True
  end.
Proof.
  paths i net l; flags; intros H; in_trace H; auto.
Qed.

Lemma turn_prints i user l line :
  verbose <= 0 -> Print line ∈ log (turn i user l) ->
  line = msg_auth \/ line = msg_unsupported \/ line = msg_failed.
Proof.
  intros Hv. paths i net l; flags; try lia; intros H; in_trace H; auto.
Qed.

End Trace.

Section Errors.

Variable verbose : Z.
Variable ip : string.
Variable timeout_value sleep_value : Z.
Variable net : server.
Variable port : Z.

Local Abbreviation turn := (iteration verbose ip timeout_value sleep_value net port).
Local Abbreviation loop := (for_loop verbose ip timeout_value sleep_value net port).

(** An exception that [except IOError] does not catch leaves the turn,
    after the close and the sleep of the [finally] block, when that sleep
    returns. *)
Lemma turn_uncaught i user l e x :
  e ∈ log (turn i user l) -> raised e = Some x -> is_io x = false ->
  on_bound_socket e = true ->
  socket_of e = Some i
  /\ (sleep_returns sleep_value (net i) -> out (turn i user l) = Exc x).
Proof.
  unfold sleep_returns.
  paths i net l; flags; intros H; in_trace H; simpl;
    try discriminate; intros [= <-]; try discriminate; intros _ _;
    (split; [reflexivity|]); intros Hs; awake Hs; reflexivity.
Qed.

Lemma loop_uncaught usernames k l e x i :
  socket_of e = Some i -> sleep_returns sleep_value (net i) ->
  e ∈ log (loop k usernames l) -> raised e = Some x -> is_io x = false ->
  on_bound_socket e = true ->
  out (loop k usernames l) = Exc x.
Proof.
  intros Hi Hs. revert k l. induction usernames as [|user rest IH]; intros k l.
  { simpl. intros H; by apply elem_of_nil in H. }
  rewrite loop_cons. pose proof (turn_uncaught k user l e x) as Hk.
  assert (e ∈ log (turn k user l) -> raised e = Some x -> is_io x = false ->
          on_bound_socket e = true -> out (turn k user l) = Exc x) as Hk'.
  { intros H Hr Hx Hb. destruct (Hk H Hr Hx Hb) as [Hik Ho]. apply Ho.
    assert (i = k) as <- by congruence. done. }
  clear Hk. destruct (turn k user l) as [[[]| |y] l1 t1]; simpl in *.
  - rewrite prepend_log, prepend_out. intros [H|H]%elem_of_app Hr Hx Hb.
    + by specialize (Hk' H Hr Hx Hb).
    + by apply IH.
  - intros H Hr Hx Hb. by specialize (Hk' H Hr Hx Hb).
  - intros H Hr Hx Hb. by specialize (Hk' H Hr Hx Hb).
Qed.

(** When the socket is created, every failure is an [IOError] and the
    sleep returns, the turn does not raise. *)
Lemma turn_only_io i user l :
  verbose <= 0 -> sleep_returns sleep_value (net i) -> only_io (net i) = true ->
  forall x, out (turn i user l) <> Exc x.
Proof.
  intros Hv. unfold only_io, sleep_returns.
  paths i net l; flags; try lia; intros Hs; awake Hs; simpl; try discriminate;
    rewrite ?andb_false_r; simpl; discriminate.
Qed.

Lemma loop_only_io usernames k l :
  verbose <= 0 -> (forall i, sleep_returns sleep_value (net i)) ->
  (forall i, only_io (net i) = true) ->
  out (loop k usernames l) = Val tt.
Proof.
  intros Hv Hs Hio. revert k l. induction usernames as [|user rest IH]; intros k l; [done|].
  rewrite loop_cons. pose proof (turn_only_io k user l Hv (Hs k) (Hio k)) as Hk.
  destruct (turn k user l) as [[[]| |y] l1 t1]; simpl in *; try done.
  - rewrite prepend_out. apply IH.
  - by destruct (Hk y).
Qed.

(** A turn in which every call returns and the reply does not end the
    scan. *)
Lemma turn_calm i user l banner r sl :
  verbose <= 0 ->
  net i = {| socket_res := None; settimeout_res := None; connect_res := None;
             banner_res := inr banner; send_res := None; reply_res := inr r;
             sleep_res := sl |} ->
  sleep_value = 0 \/ sl = None ->
  goes_on r = true ->
  out (turn i user l) = Val tt
  /\ valid_users (vars (turn i user l))
     = (valid_users l ++ if Py.contains "252" r then [user] else [])%list.
Proof.
  intros Hv E. unfold goes_on. unfold_py. rewrite E. destruct l as [valid bound].
  assert ((verbose >? 0) = false) as -> by (rewrite Z.gtb_ltb; apply Z.ltb_ge; lia).
  assert ((verbose >? 1) = false) as -> by (rewrite Z.gtb_ltb; apply Z.ltb_ge; lia).
  simpl. intros Hs.
  follow; flags; try lia; awake Hs; simpl; try discriminate; rewrite ?app_nil_r; auto.
Qed.

Lemma loop_calm (banner reply : nat -> string) (sl : nat -> option exn) usernames k l :
  verbose <= 0 ->
  (forall i, (k <= i < k + length usernames)%nat ->
             net i = {| socket_res := None; settimeout_res := None; connect_res := None;
                        banner_res := inr (banner i); send_res := None;
                        reply_res := inr (reply i); sleep_res := sl i |}
             /\ sleep_returns sleep_value (net i)
             /\ goes_on (reply i) = true) ->
  out (loop k usernames l) = Val tt
  /\ valid_users (vars (loop k usernames l))
     = (valid_users l ++ confirmed_by reply k usernames)%list
  /\ existsb announces (log (loop k usernames l)) = false
  /\ attempts (log (loop k usernames l)) = seq k (length usernames).
Proof.
  intros Hv. revert k l. induction usernames as [|user rest IH]; intros k l Hnet.
  { simpl. by rewrite app_nil_r. }
  destruct (Hnet k) as (E & Hs & Hgo); [simpl; lia|].
  unfold sleep_returns in Hs. rewrite E in Hs. simpl in Hs.
  destruct (turn_calm k user l _ _ _ Hv E Hs Hgo) as [Ho Hvalid].
  pose proof (turn_quiet verbose ip timeout_value sleep_value net port k user l tt Ho) as Hq.
  pose proof (turn_attempts verbose ip timeout_value sleep_value net port k user l) as Ha.
  destruct (IH (S k) (vars (turn k user l))) as (Ho' & Hv' & Hq' & Ha').
  { intros i Hi. apply Hnet. simpl. lia. }
  rewrite loop_cons. destruct (turn k user l) as [o l1 t1]; simpl in *. subst o.
  rewrite prepend_out, prepend_vars, prepend_log, existsb_app, attempts_app.
  rewrite Ho', Hv', Hq, Hq', Ha, Ha', Hvalid. repeat split; try done.
  rewrite <- app_assoc. by destruct (Py.contains "252" (reply k)).
Qed.

(** An [IOError] of any call on the socket of the turn: the confirmed list
    is as before; when the sleep returns, the marker ends the loop, after
    the line that says so, and any other message lets the loop go on. *)
Lemma turn_io_error i user l e msg :
  verbose <= 0 -> sleep_returns sleep_value (net i) ->
  e ∈ log (turn i user l) -> raised e = Some (IOError msg) ->
  on_bound_socket e = true ->
  valid_users (vars (turn i user l)) = valid_users l
  /\ if Py.contains "Operation now in progress" msg
     then out (turn i user l) = Brk /\ Print msg_failed ∈ log (turn i user l)
     else out (turn i user l) = Val tt.
Proof.
  intros Hv. unfold sleep_returns.
  paths i net l; flags; try lia; intros Hs H; in_trace H; simpl;
    try discriminate; intros [= <-]; try discriminate; intros _; awake Hs;
    try congruence; tests; rewrite ?elem_of_cons; auto 12.
Qed.

End Errors.

(** ** The engine: the whole call *)

Section Calls.

Variable int : string -> option Z.
Variable verbose : Z.
Variable ip : string.
Variable timeout_value sleep_value : Z.
Variable net : server.

Local Abbreviation loop := (for_loop verbose ip timeout_value sleep_value net).

(** The trace of a call is empty, the one line of a verbose call, or the
    trace of the loop on the resolved port. *)
Lemma verify_log usernames port :
  log (verify_smtp int verbose usernames ip timeout_value sleep_value port net) = []
  \/ log (verify_smtp int verbose usernames ip timeout_value sleep_value port net)
     = [Print msg_connecting]
  \/ exists p, verbose <= 0 /\ resolve_port int port = inr p
               /\ verify_smtp int verbose usernames ip timeout_value sleep_value port net
                  = {| out := match out (loop p 0%nat usernames entry) with
                              | Val _ => Val (valid_users (vars (loop p 0%nat usernames entry)))
                              | Brk => Brk
                              | Exc e => Exc e
                              end;
                       vars := vars (loop p 0%nat usernames entry);
                       log := log (loop p 0%nat usernames entry) |}.
Proof.
  destruct (resolve_port int port) as [x|p] eqn:Hp.
  { left. by rewrite (verify_bad_port _ _ _ _ _ _ _ _ _ Hp). }
  destruct (Z.lt_ge_cases 0 verbose) as [Hv|Hv].
  { right. left. by rewrite (verify_noisy _ _ _ _ _ _ _ _ _ Hv Hp). }
  right. right. exists p. split; [lia|]. split; [done|]. by apply verify_silent.
Qed.

(** With a verbosity above zero the call raises before any socket is
    asked for, whatever the candidates and the server. *)
Theorem verbose_call_makes_no_connection usernames port :
  0 < verbose ->
  (exists x, out (verify_smtp int verbose usernames ip timeout_value sleep_value port net)
             = Exc x)
  /\ forall e,
       e ∈ log (verify_smtp int verbose usernames ip timeout_value sleep_value port net) ->
       socket_of e = None.
Proof.
  intros Hv. destruct (resolve_port int port) as [x|p] eqn:Hp.
  - rewrite (verify_bad_port _ _ _ _ _ _ _ _ _ Hp). simpl. split; [eauto|].
    intros e H. by apply elem_of_nil in H.
  - rewrite (verify_noisy _ _ _ _ _ _ _ _ _ Hv Hp). simpl. split; [eauto|].
    intros e H. by apply list_elem_of_singleton in H as ->.
Qed.

(** One connection at a time: along the trace of any call a socket is
    created only when none is open, every call on a socket is on the one
    that is open, and none is open when the call ends, returned or raised. *)
Theorem connections_are_exclusive usernames port :
  track (log (verify_smtp int verbose usernames ip timeout_value sleep_value port net)) None
  = Some None.
Proof.
  destruct (verify_log usernames port) as [-> | [-> | (p & _ & _ & ->)]]; try done.
  apply loop_track.
Qed.

(** The candidates are attempted in the order of the input, each once and
    none skipped: the sockets asked for are those of positions 0, 1, ...,
    up to where the scan stopped. *)
Theorem candidates_attempted_in_order usernames port :
  exists n, (n <= length usernames)%nat
            /\ attempts (log (verify_smtp int verbose usernames ip timeout_value
                                sleep_value port net)) = seq 0 n.
Proof.
  destruct (verify_log usernames port) as [-> | [-> | (p & _ & _ & ->)]];
    try (exists 0%nat; split; [lia|done]).
  apply loop_attempts.
Qed.

(** What is sent on the socket of a candidate is the line [VRFY], a space,
    the candidate as it was given, and a line feed. *)
Theorem vrfy_command_sent usernames port j command res :
  Send j command res
    ∈ log (verify_smtp int verbose usernames ip timeout_value sleep_value port net) ->
  exists user, usernames !! j = Some user /\ command = "VRFY " ++ user ++ newline.
Proof.
  destruct (verify_log usernames port) as [-> | [-> | (p & _ & _ & ->)]].
  - intros H. by apply elem_of_nil in H.
  - intros H. by apply list_elem_of_singleton in H.
  - simpl. intros H.
    destruct (loop_events verbose ip timeout_value sleep_value net p
                (fun i user e =>
                   match e with
                   | Send j' c _ => j' = i /\ c = "VRFY " ++ user ++ newline
                   | _ => True
                   end) usernames 0 entry _
                ltac:(intros i user l' [] He; try done; by eapply turn_send) H)
      as (i & user & _ & Hu & -> & ->).
    exists user. by rewrite Nat.sub_0_r in Hu.
Qed.

(** The settings are used as given: every connect goes to the given host
    and the resolved port, every timeout set is the given one, and a sleep
    happens only with a delay other than zero and lasts that delay. *)
Theorem call_uses_settings usernames port e :
  e ∈ log (verify_smtp int verbose usernames ip timeout_value sleep_value port net) ->
  match e with
  | Connect _ ip' port' _ => ip' = ip /\ resolve_port int port = inr port'
  | SetTimeout _ seconds _ => seconds = timeout_value
  | Sleep seconds => seconds = sleep_value /\ sleep_value <> 0
  | _ => True
  end.
Proof.
  destruct (verify_log usernames port) as [-> | [-> | (p & _ & Hp & ->)]].
  - intros H. by apply elem_of_nil in H.
  - intros H. by apply list_elem_of_singleton in H as ->.
  - simpl. intros H.
    destruct (loop_events verbose ip timeout_value sleep_value net p
                (fun _ _ e =>
                   match e with
                   | Connect _ ip' port' _ => ip' = ip /\ port' = p
                   | SetTimeout _ seconds _ => seconds = timeout_value
                   | Sleep seconds => seconds = sleep_value /\ sleep_value <> 0
                   | _ => True
                   end) usernames 0 entry _
                ltac:(intros i user l' e'; apply turn_settings) H)
      as (_ & _ & _ & _ & He).
    destruct e; try done. destruct He as [-> ->]. done.
Qed.

(** With a verbosity of zero or less nothing is printed but the line that
    tells why the scan was aborted. *)
Theorem silent_call_prints_only_aborts usernames port line :
  verbose <= 0 ->
  Print line
    ∈ log (verify_smtp int verbose usernames ip timeout_value sleep_value port net) ->
  line = msg_auth \/ line = msg_unsupported \/ line = msg_failed.
Proof.
  intros Hv. destruct (verify_log usernames port) as [-> | [E | (p & _ & Hp & ->)]].
  - intros H. by apply elem_of_nil in H.
  - destruct (resolve_port int port) as [x|p] eqn:Hp.
    { rewrite (verify_bad_port _ _ _ _ _ _ _ _ _ Hp). intros H. by apply elem_of_nil in H. }
    rewrite (verify_silent _ _ _ _ _ _ _ _ _ Hv Hp) in *. simpl in *. rewrite E.
    intros H. apply list_elem_of_singleton in H. injection H as ->.
    exfalso. clear -E Hv.
    assert (Print msg_connecting ∈ log (loop p 0%nat usernames entry)) as H
        by (rewrite E; by left).
    destruct (loop_events verbose ip timeout_value sleep_value net p
                (fun _ _ e => e <> Print msg_connecting) usernames 0 entry _
                ltac:(intros i user l' e' He' ->;
                      by destruct (turn_prints _ _ _ _ _ _ _ _ _ _ Hv He')
                        as [?|[?|?]]) H)
      as (_ & _ & _ & _ & Hne).
    done.
  - simpl. intros H.
    destruct (loop_events verbose ip timeout_value sleep_value net p
                (fun _ _ e =>
                   match e with
                   | Print l' => l' = msg_auth \/ l' = msg_unsupported \/ l' = msg_failed
                   | _ => True
                   end) usernames 0 entry _
                ltac:(intros i user l' [] He'; try done; by eapply turn_prints) H)
      as (_ & _ & _ & _ & He).
    done.
Qed.

(** Errors of single candidates do not leave the function: with a silent
    verbosity, a port that resolves and a server with which every socket is
    created, every failing call on it raises an [IOError] and every sleep
    returns, the call returns a list. *)
Theorem io_errors_do_not_propagate usernames port p :
  verbose <= 0 -> resolve_port int port = inr p ->
  (forall i, only_io (net i) = true) ->
  (forall i, sleep_returns sleep_value (net i)) ->
  exists found,
    out (verify_smtp int verbose usernames ip timeout_value sleep_value port net) = Val found.
Proof.
  intros Hv Hp Hio Hs. rewrite (verify_silent _ _ _ _ _ _ _ _ _ Hv Hp). simpl.
  rewrite (loop_only_io verbose ip timeout_value sleep_value net p usernames 0 entry
             Hv Hs Hio).
  eauto.
Qed.

(** An exception that is not caught ends the call, when the sleep of its
    turn returns. *)
Lemma verify_uncaught usernames port e x i :
  e ∈ log (verify_smtp int verbose usernames ip timeout_value sleep_value port net) ->
  raised e = Some x -> is_io x = false -> on_bound_socket e = true ->
  socket_of e = Some i -> sleep_returns sleep_value (net i) ->
  out (verify_smtp int verbose usernames ip timeout_value sleep_value port net) = Exc x.
Proof.
  destruct (verify_log usernames port) as [-> | [-> | (p & _ & Hp & ->)]].
  - intros H. by apply elem_of_nil in H.
  - intros H. by apply list_elem_of_singleton in H as ->.
  - simpl. intros H Hr Hx Hb Hi Hs.
    by rewrite (loop_uncaught verbose ip timeout_value sleep_value net p usernames 0
                  entry e x i Hi Hs H Hr Hx Hb).
Qed.

(** An exception other than an [IOError], raised by a call on the socket of
    a candidate, ends the whole call with that exception, when the sleep
    of the [finally] block, if there is one, returns. *)
Theorem uncaught_exception_ends_call usernames port e x i :
  e ∈ log (verify_smtp int verbose usernames ip timeout_value sleep_value port net) ->
  raised e = Some x -> is_io x = false -> on_bound_socket e = true ->
  socket_of e = Some i -> sleep_returns sleep_value (net i) ->
  out (verify_smtp int verbose usernames ip timeout_value sleep_value port net) = Exc x.
Proof. apply verify_uncaught. Qed.

(** On a server with which every call returns, the sleep too, and no
    reply ends the scan, a silent call on a port that resolves attempts
    every candidate and returns, as a completed scan, exactly the
    candidates whose reply has 252, in the order of the input. *)
Theorem calm_scan_confirms (banner reply : nat -> string) (sl : nat -> option exn)
    usernames port p :
  verbose <= 0 -> resolve_port int port = inr p ->
  (forall i, (i < length usernames)%nat ->
             net i = {| socket_res := None; settimeout_res := None; connect_res := None;
                        banner_res := inr (banner i); send_res := None;
                        reply_res := inr (reply i); sleep_res := sl i |}
             /\ sleep_returns sleep_value (net i)
             /\ goes_on (reply i) = true) ->
  scan_result (verify_smtp int verbose usernames ip timeout_value sleep_value port net)
  = inr {| confirmed := confirmed_by reply 0 usernames; status := Completed |}
  /\ attempts (log (verify_smtp int verbose usernames ip timeout_value sleep_value port net))
     = seq 0 (length usernames).
Proof.
  intros Hv Hp Hnet. rewrite (verify_silent _ _ _ _ _ _ _ _ _ Hv Hp).
  destruct (loop_calm verbose ip timeout_value sleep_value net p banner reply sl
              usernames 0 entry Hv) as (Ho & Hvalid & Hq & Ha).
  { intros i Hi. apply Hnet. lia. }
  unfold scan_result. simpl. rewrite Ho, Hvalid, Ha. split; [|done].
  destruct (quiet_prints _ Hq) as (H1 & H2 & H3).
  unfold status_of. by rewrite H1, H2, H3.
Qed.

End Calls.

(** ** Connect failures *)

Section ConnectFailures.

Variable int : string -> option Z.
Variable verbose : Z.
Variable ip : string.
Variable timeout_value sleep_value : Z.
Variable net : server.

(** C3, as the code has it: when the connect of a candidate fails with an
    [IOError], the text of the error decides.  With ['Operation now in
    progress'] in it, no call is made for a later candidate and (when the
    sleep of that turn, if there is one, returns) the scan returns as
    aborted for a connection error.  With any other text the next
    candidate, if there is one, is attempted (when the sleep returns).  A
    failure that is not an [IOError] is not caught: it ends the call (when
    the sleep returns). *)
Theorem connect_failure_policy usernames port i ip' port' x :
  Connect i ip' port' (Some x)
    ∈ log (verify_smtp int verbose usernames ip timeout_value sleep_value port net) ->
  match x with
  | IOError msg =>
      (occurs "Operation now in progress" msg ->
       (forall e j,
           e ∈ log (verify_smtp int verbose usernames ip timeout_value sleep_value
                      port net) ->
           socket_of e = Some j -> (j <= i)%nat)
       /\ (sleep_returns sleep_value (net i) ->
           scan_result (verify_smtp int verbose usernames ip timeout_value sleep_value
                          port net)
           = inr {| confirmed :=
                      valid_users
                        (vars (verify_smtp int verbose usernames ip timeout_value
                                 sleep_value port net));
                    status := Aborted ConnectionError |}))
      /\ (~ occurs "Operation now in progress" msg ->
          sleep_returns sleep_value (net i) ->
          forall next, usernames !! S i = Some next ->
          SocketNew (S i) (socket_res (net (S i)))
            ∈ log (verify_smtp int verbose usernames ip timeout_value sleep_value
                     port net))
  | _ =>
      sleep_returns sleep_value (net i) ->
      out (verify_smtp int verbose usernames ip timeout_value sleep_value port net)
      = Exc x
  end.
Proof.
  intros H.
  destruct x as [msg| | | |name];
    try (intros Hs;
         by apply (verify_uncaught int verbose ip timeout_value sleep_value net
                     usernames port _ _ i H)).
  rewrite <- !contains_occurs. split.
  - intros Hm.
    by apply (verify_fatal int verbose ip timeout_value sleep_value net usernames port
                (Connect i ip' port' (Some (IOError msg))) i H).
  - intros Hm%not_true_is_false Hs next Hn.
    destruct (verify_reached int verbose ip timeout_value sleep_value net usernames port
                _ i H eq_refl) as (Hv & p & Hp).
    revert H. rewrite (verify_silent _ _ _ _ _ _ _ _ _ Hv Hp). simpl. intros H.
    eapply loop_goes_on; eauto.
Qed.

End ConnectFailures.

(** C3, as stated, fails.  A connect that is not made in time raises with
    the text [timed out], which has no marker: all three candidates are
    attempted and the scan completes.  And a connect failure that is not
    an [IOError], as for a port above 65535, is not caught: it ends the
    call at the first candidate. *)
Lemma timed_out_connect_goes_on :
  scan_result (verify_smtp Py.int 0 three "192.0.2.7" 5 0 (PInt 25) timing_out)
  = inr {| confirmed := []; status := Completed |}
  /\ attempts (log (verify_smtp Py.int 0 three "192.0.2.7" 5 0 (PInt 25) timing_out))
     = [0; 1; 2]%nat
  /\ verify_smtp Py.int 0 three "192.0.2.7" 5 0 (PInt 70000) port_out_of_range
     = {| out := Exc (OtherException "OverflowError");
          vars := {| valid_users := []; s := Some 0%nat |};
          log := [Flush; SocketNew 0 None; SetTimeout 0 5 None;
                  Connect 0 "192.0.2.7" 70000 (Some (OtherException "OverflowError"));
                  Close 0] |}.
Proof. repeat split; reflexivity. Qed.

Lemma connect_failure_policy_witness :
  scan_result (verify_smtp Py.int 0 three "192.0.2.7" 5 0 (PInt 25) pending)
  = inr {| confirmed := []; status := Aborted ConnectionError |}
  /\ SocketNew 1 None ∈ log (verify_smtp Py.int 0 three "192.0.2.7" 5 0 (PInt 25) refused_once)
  /\ out (verify_smtp Py.int 0 three "192.0.2.7" 5 0 (PInt 70000) port_out_of_range)
     = Exc (OtherException "OverflowError").
Proof.
  split; [|split].
  - exact (proj2 (proj1 (connect_failure_policy Py.int 0 "192.0.2.7" 5 0 pending three
                           (PInt 25) 0%nat "192.0.2.7" 25
                           (IOError "[Errno 115] Operation now in progress")
                           ltac:(vm_compute; repeat constructor))
                    (ex_intro _ "[Errno 115] " (ex_intro _ "" eq_refl)))
             (or_introl eq_refl)).
  - exact (proj2 (connect_failure_policy Py.int 0 "192.0.2.7" 5 0 refused_once three
                    (PInt 25) 0%nat "192.0.2.7" 25
                    (IOError "[Errno 111] Connection refused")
                    ltac:(vm_compute; repeat constructor))
             ltac:(intros H; apply contains_occurs in H; discriminate H)
             (or_introl eq_refl) "admin" eq_refl).
  - exact (connect_failure_policy Py.int 0 "192.0.2.7" 5 0 port_out_of_range three
             (PInt 70000) 0%nat "192.0.2.7" 70000 (OtherException "OverflowError")
             ltac:(vm_compute; repeat constructor) (or_introl eq_refl)).
Defined.

Section Policy.

Variable verbose : Z.
Variable ip : string.
Variable timeout_value sleep_value : Z.
Variable net : server.

(** A transport error in the middle of a probe is handled as a connect
    failure is: an [IOError] raised by any call on the socket of the turn
    (settimeout, connect, either recv, send) leaves the confirmed list as
    it was; when the sleep of the turn, if there is one, returns, the
    marker anywhere in its message ends the loop after the line of the
    failed connection, and without it the loop goes on with the next
    candidate. *)
Theorem io_error_policy port i user rest l e msg :
  verbose <= 0 -> sleep_returns sleep_value (net i) ->
  e ∈ log (iteration verbose ip timeout_value sleep_value net port i user l) ->
  raised e = Some (IOError msg) -> on_bound_socket e = true ->
  valid_users (vars (iteration verbose ip timeout_value sleep_value net port i user l))
  = valid_users l
  /\ (occurs "Operation now in progress" msg ->
      Print msg_failed
        ∈ log (iteration verbose ip timeout_value sleep_value net port i user l)
      /\ for_loop verbose ip timeout_value sleep_value net port i (user :: rest) l
         = {| out := Val tt;
              vars := vars (iteration verbose ip timeout_value sleep_value net
                              port i user l);
              log := log (iteration verbose ip timeout_value sleep_value net
                            port i user l) |})
  /\ (~ occurs "Operation now in progress" msg ->
      for_loop verbose ip timeout_value sleep_value net port i (user :: rest) l
      = prepend
          (log (iteration verbose ip timeout_value sleep_value net port i user l))
          (for_loop verbose ip timeout_value sleep_value net port (S i) rest
             (vars (iteration verbose ip timeout_value sleep_value net port i user l)))).
Proof.
  intros Hv Hs H Hr Hb.
  destruct (turn_io_error verbose ip timeout_value sleep_value net port i user l e msg
              Hv Hs H Hr Hb) as [Hvalid Hout].
  split; [done|]. rewrite <- !contains_occurs. rewrite loop_cons.
  destruct (Py.contains "Operation now in progress" msg).
  - split; [|intros Hn; by destruct Hn]. intros _.
    destruct Hout as [Ho Hp]. split; [done|].
    destruct (iteration verbose ip timeout_value sleep_value net port i user l)
      as [o l1 t1]; simpl in *. by subst o.
  - split; [done|]. intros _.
    destruct (iteration verbose ip timeout_value sleep_value net port i user l)
      as [o l1 t1]; simpl in *. by subst o.
Qed.

End Policy.

(** ** The supplier *)

Lemma split_cons sep text : exists piece pieces, Py.split sep text = piece :: pieces.
Proof.
  destruct text as [|c rest]; simpl; [eauto|].
  destruct (Ascii.eqb c sep); [eauto|]. destruct (Py.split sep rest); eauto.
Qed.

Lemma split_length sep text :
  length (Py.split sep text) = S (count_char sep text).
Proof.
  induction text as [|c rest IH]; simpl; [done|].
  destruct (Ascii.eqb c sep); simpl; [by rewrite IH|].
  destruct (split_cons sep rest) as (piece & pieces & E). rewrite E in *. done.
Qed.

Lemma join_split sep text : join sep (Py.split sep text) = text.
Proof.
  induction text as [|c rest IH]; simpl; [done|].
  destruct (split_cons sep rest) as (piece & pieces & E). rewrite E in *.
  rewrite <- IH.
  destruct (Ascii.eqb_spec c sep) as [->|_]; [done|]. by destruct pieces.
Qed.

Section SupplierMore.

Variable isfile : string -> bool.
Variable read : string -> read_result.
Variable splitlines : string -> list string.
Variable urlparse : string -> exn + ParseResult.

(** An argument that names a file never makes [get_usernames] raise, and
    its lines are not looked at as URLs: when the file is read the result
    is what [splitlines] makes of its text, as it is, and every failure is
    one printed line and the empty list. *)
Theorem file_argument usernames_arg :
  usernames_arg <> "" -> isfile usernames_arg = true ->
  match read usernames_arg with
  | Content text =>
      get_usernames isfile read splitlines urlparse usernames_arg
      = ([], inr (splitlines text))
  | _ =>
      exists line, get_usernames isfile read splitlines urlparse usernames_arg = ([line], inr [])
  end.
Proof.
  intros Hne Hfile. unfold get_usernames, read_file. rewrite Hfile.
  destruct (String.eqb_spec usernames_arg "") as [->|_]; [done|]. simpl.
  destruct (read usernames_arg); eauto.
Qed.

(** An inline list gives one candidate more than it has spaces: a space
    at the start or the end, or two in a row, give an empty candidate. *)
Theorem inline_candidate_count usernames_arg names :
  usernames_arg <> "" -> isfile usernames_arg = false ->
  snd (get_usernames isfile read splitlines urlparse usernames_arg) = inr names ->
  length names = S (count_char " " usernames_arg).
Proof.
  intros Hne Hfile. unfold get_usernames. rewrite Hfile.
  destruct (String.eqb_spec usernames_arg "") as [->|_]; [done|]. simpl.
  intros (new & -> & H)%collect_spec. simpl.
  apply Forall2_length in H. by rewrite <- H, split_length.
Qed.

(** Names without an http or https scheme pass unchanged, and nothing is
    lost: the candidates are the pieces of the argument, and joined by
    spaces they give the argument back. *)
Theorem inline_plain_round_trip usernames_arg :
  usernames_arg <> "" -> isfile usernames_arg = false ->
  (forall entry, entry ∈ Py.split " " usernames_arg ->
                 exists parsed, urlparse entry = inr parsed
                                /\ String.eqb (scheme parsed) "http" = false
                                /\ String.eqb (scheme parsed) "https" = false) ->
  exists names,
    get_usernames isfile read splitlines urlparse usernames_arg = ([], inr names)
    /\ join " " names = usernames_arg.
Proof.
  intros Hne Hfile Hplain. exists (Py.split " " usernames_arg).
  split; [|apply join_split].
  unfold get_usernames. rewrite Hfile.
  destruct (String.eqb_spec usernames_arg "") as [->|_]; [done|]. simpl. f_equal.
  assert (forall entries usernames,
             (forall entry, entry ∈ entries ->
                            exists parsed, urlparse entry = inr parsed
                                           /\ String.eqb (scheme parsed) "http" = false
                                           /\ String.eqb (scheme parsed) "https" = false) ->
             collect urlparse entries usernames = inr (usernames ++ entries)%list) as Hc.
  { induction entries as [|entry rest IH]; intros usernames H; simpl.
    - by rewrite app_nil_r.
    - destruct (H entry) as (parsed & Hp & H1 & H2); [by left|].
      unfold username_of. rewrite Hp, H1, H2. simpl.
      rewrite IH; [by rewrite <- app_assoc|].
      intros e He. apply H. by right. }
  by rewrite Hc.
Qed.

End SupplierMore.

(** ** The command line: the [__main__] block *)

(** From the command line the script cannot confirm anything: with the
    verbosity [argparse] gives, [None] without [-v] and one or more with
    it, the script ends with an exception (so it prints no report), and it
    has made no call on a socket. *)
Theorem main_always_fails int isfile read splitlines urlparse net args :
  arg_verbose args = None \/ (exists v, arg_verbose args = Some v /\ 0 < v) ->
  (exists x, failure (main int isfile read splitlines urlparse net args) = Some x)
  /\ forall e, e ∈ seen (main int isfile read splitlines urlparse net args) ->
               socket_of e = None.
Proof.
  intros Hv. unfold main.
  destruct (get_usernames isfile read splitlines urlparse (arg_usernames args))
    as [lines [e|usernames]].
  - simpl. split; [eauto|]. by intros e' (line & -> & Hl)%list_elem_of_fmap.
  - destruct Hv as [-> | (v & -> & Hv)]; simpl.
    + rewrite app_nil_r. split; [eauto|].
      by intros e' (line & -> & Hl)%list_elem_of_fmap.
    + rewrite (verify_noisy int v (arg_ip args) (arg_timeout args) (arg_sleep args) net
                 usernames (PInt (arg_port args)) (arg_port args) Hv eq_refl).
      split; [eauto|]. intros e' [H|H]%elem_of_app.
      * by apply list_elem_of_fmap in H as (line & -> & Hl).
      * by apply list_elem_of_singleton in H as ->.
Qed.

(** ** The properties on concrete runs *)

Lemma verbose_call_makes_no_connection_witness :
  (exists x, out (verify_smtp Py.int 2 three "192.0.2.7" 5 0 (PInt 25) rejects_then_auth) = Exc x)
  /\ forall e, e ∈ log (verify_smtp Py.int 2 three "192.0.2.7" 5 0 (PInt 25) rejects_then_auth) ->
               socket_of e = None.
Proof.
  exact (verbose_call_makes_no_connection Py.int 2 "192.0.2.7" 5 0 rejects_then_auth three
           (PInt 25) ltac:(lia)).
Defined.

Lemma vrfy_command_sent_witness :
  exists user, three !! 1%nat = Some user /\ "VRFY admin" ++ newline = "VRFY " ++ user ++ newline.
Proof.
  exact (vrfy_command_sent Py.int 0 "192.0.2.7" 5 0 rejects_then_auth three (PInt 25) 1%nat
           ("VRFY admin" ++ newline) None ltac:(vm_compute; repeat constructor)).
Defined.

Lemma call_uses_settings_witness :
  "192.0.2.7" = "192.0.2.7" /\ resolve_port Py.int (PStr " 2525 ") = inr 2525.
Proof.
  exact (call_uses_settings Py.int 0 "192.0.2.7" 5 0 rejects_then_auth three (PStr " 2525 ")
           (Connect 0 "192.0.2.7" 2525 None) ltac:(vm_compute; repeat constructor)).
Defined.

Lemma silent_call_prints_only_aborts_witness :
  msg_auth = msg_auth \/ msg_auth = msg_unsupported \/ msg_auth = msg_failed.
Proof.
  exact (silent_call_prints_only_aborts Py.int 0 "192.0.2.7" 5 0 rejects_then_auth three
           (PInt 25) msg_auth ltac:(lia) ltac:(vm_compute; repeat constructor)).
Defined.

Lemma io_errors_do_not_propagate_witness :
  exists found, out (verify_smtp Py.int 0 three "192.0.2.7" 5 1 PNone refused_once) = Val found.
Proof.
  exact (io_errors_do_not_propagate Py.int 0 "192.0.2.7" 5 1 refused_once three PNone 25
           ltac:(lia) eq_refl ltac:(intros [|i]; reflexivity)
           ltac:(intros [|i]; right; reflexivity)).
Defined.

Lemma uncaught_exception_ends_call_witness :
  out (verify_smtp Py.int 0 three "192.0.2.7" 5 0 (PInt 25) bytes_only) = Exc TypeError.
Proof.
  exact (uncaught_exception_ends_call Py.int 0 "192.0.2.7" 5 0 bytes_only three (PInt 25)
           (Send 0 ("VRFY root" ++ newline) (Some TypeError)) TypeError 0%nat
           ltac:(vm_compute; repeat constructor) eq_refl eq_refl eq_refl eq_refl
           (or_introl eq_refl)).
Defined.

Lemma calm_scan_confirms_witness :
  scan_result (verify_smtp Py.int 0 three "192.0.2.7" 5 1 (PInt 25) (replying mixed_replies))
  = inr {| confirmed := ["root"]; status := Completed |}
  /\ attempts (log (verify_smtp Py.int 0 three "192.0.2.7" 5 1 (PInt 25) (replying mixed_replies)))
     = [0; 1; 2]%nat.
Proof.
  exact (calm_scan_confirms Py.int 0 "192.0.2.7" 5 1 (replying mixed_replies)
           (fun _ => "220 mail.example.org ESMTP") (fun i => nth i mixed_replies "")
           (fun _ => None) three (PInt 25) 25 ltac:(lia) eq_refl
           ltac:(intros i Hi; split; [reflexivity|]; split; [right; reflexivity|];
                 do 3 (destruct i as [|i]; [reflexivity|]); simpl in Hi; lia)).
Defined.

Lemma io_error_policy_witness :
  valid_users (vars (iteration 0 "192.0.2.7" 5 0 mute 25 0 "root" entry)) = []
  /\ for_loop 0 "192.0.2.7" 5 0 mute 25 0 ["root"; "admin"] entry
     = prepend (log (iteration 0 "192.0.2.7" 5 0 mute 25 0 "root" entry))
         (for_loop 0 "192.0.2.7" 5 0 mute 25 1 ["admin"]
            (vars (iteration 0 "192.0.2.7" 5 0 mute 25 0 "root" entry))).
Proof.
  destruct (io_error_policy 0 "192.0.2.7" 5 0 mute 25 0%nat "root" ["admin"] entry
              (Banner 0 (inl (IOError "timed out"))) "timed out"
              ltac:(lia) (or_introl eq_refl) ltac:(vm_compute; repeat constructor)
              eq_refl eq_refl) as (Hvalid & _ & Hgo).
  split; [exact Hvalid|].
  exact (Hgo ltac:(intros H; apply contains_occurs in H; discriminate H)).
Defined.

Lemma file_argument_witness :
  get_usernames only_users_txt users_txt Lines.splitlines Urllib.urlparse "users.txt"
  = ([], inr ["root"; ""; "admin"]).
Proof.
  exact (file_argument only_users_txt users_txt Lines.splitlines Urllib.urlparse
           "users.txt"
           ltac:(discriminate) eq_refl).
Defined.

Lemma inline_candidate_count_witness :
  length ["root"; ""; "admin"; ""] = S (count_char " " "root  admin ").
Proof.
  exact (inline_candidate_count no_file no_read Lines.splitlines Urllib.urlparse
           "root  admin "
           ["root"; ""; "admin"; ""] ltac:(discriminate) eq_refl eq_refl).
Defined.

Lemma inline_plain_round_trip_witness :
  exists names,
    get_usernames no_file no_read Lines.splitlines Urllib.urlparse "root  admin " = ([], inr names)
    /\ join " " names = "root  admin ".
Proof.
  exact (inline_plain_round_trip no_file no_read Lines.splitlines Urllib.urlparse
           "root  admin "
           ltac:(discriminate) eq_refl
           ltac:(intros entry H; vm_compute in H;
                 repeat (apply elem_of_cons in H as [->|H]; [eexists; by vm_compute|]);
                 by apply elem_of_nil in H)).
Defined.

Lemma main_always_fails_witness :
  (exists x,
      failure (main Py.int no_file no_read Lines.splitlines Urllib.urlparse
                   (replying mixed_replies)
                 {| arg_verbose := None; arg_usernames := "root admin guest";
                    arg_ip := "192.0.2.7"; arg_timeout := 5; arg_sleep := 0;
                    arg_port := 25 |}) = Some x)
  /\ forall e,
       e ∈ seen (main Py.int no_file no_read Lines.splitlines Urllib.urlparse
                   (replying mixed_replies)
                   {| arg_verbose := None; arg_usernames := "root admin guest";
                      arg_ip := "192.0.2.7"; arg_timeout := 5; arg_sleep := 0;
                      arg_port := 25 |}) ->
       socket_of e = None.
Proof.
  exact (main_always_fails Py.int no_file no_read Lines.splitlines Urllib.urlparse
           (replying mixed_replies)
           {| arg_verbose := None; arg_usernames := "root admin guest";
              arg_ip := "192.0.2.7"; arg_timeout := 5; arg_sleep := 0; arg_port := 25 |}
           (or_introl eq_refl)).
Defined.
